(** * wisecow health scripts: a shallow embedding and its properties

    Two scripts are embedded:
    - [app_health_checker.py] (module [App]): HTTP endpoint checks, the
      in-memory history, the rolling uptime, the report and the exit code;
    - [system_health_monitor.py] (module [Sys]): the module does not compile
      (line 132), so what is embedded is what Python does with it.

    Conventions of the embedding.
    - Python [int] is [Z].  A Python [float] is idealised as the rational it
      denotes ([Q]): comparisons are exact in Python and so are they here, but
      the code rounds every quotient, product and [round] to a double and the
      model does not, so the two can differ in the last digits.  The
      statements about floats are therefore bounds and the values 0 and 100,
      which the doubles share, never other exact values.
    - A naive [datetime] is the number of microseconds since
      0001-01-01T00:00:00, a [Z]; [isoformat]/[fromisoformat] round-trip, so
      the ['timestamp'] string of a result is identified with that value.
    - Everything the scripts read from outside (clocks, the network, psutil,
      the file system) is an oracle in an environment record; what they change
      (logs, the report file, counters of oracle calls) is a world record
      threaded through a state-and-exception monad.
    - [exn] stands for instances of Python's [Exception]; [SystemExit] raised
      by [sys.exit] is not one, so [main] returns its exit code directly.
    - Console output ([print]) is not modelled. *)

From Stdlib Require Import Ascii String ZArith QArith Qround List Bool Lia Arith.
From Stdlib Require Import DecimalString.
Import ListNotations.

Local Open Scope Z_scope.

(** ** Exceptions and the monad *)

Inductive exn : Type :=
| OverflowError
| TypeError
| PermissionError
| OtherException (text : string).

Inductive result (A : Type) : Type :=
| Ok (a : A)
| Raise (e : exn).
Arguments Ok {A} a.
Arguments Raise {A} e.

(** A computation over a world [W]: the world keeps the changes made before an
    exception was raised. *)
Definition M (W A : Type) : Type := W -> result A * W.

Definition ret {W A} (a : A) : M W A := fun w => (Ok a, w).

Definition bind {W A B} (m : M W A) (k : A -> M W B) : M W B :=
  fun w => match m w with
           | (Ok a, w') => k a w'
           | (Raise e, w') => (Raise e, w')
           end.

Definition raise {W A} (e : exn) : M W A := fun w => (Raise e, w).

(** [try: m  except Exception as e: h e] *)
Definition try_except {W A} (m : M W A) (h : exn -> M W A) : M W A :=
  fun w => match m w with
           | (Ok a, w') => (Ok a, w')
           | (Raise e, w') => h e w'
           end.

Definition modify {W} (f : W -> W) : M W unit := fun w => (Ok tt, f w).

Declare Scope py_scope.
Delimit Scope py_scope with py.
Notation "x <- m ;; k" := (bind m (fun x => k))
  (at level 61, m at next level, right associativity) : py_scope.
Notation "m ;;; k" := (bind m (fun _ => k))
  (at level 61, right associativity) : py_scope.

(** A [for] loop that builds a list: [[f x for x in xs]], left to right. *)
Fixpoint mapM {W A B} (f : A -> M W B) (xs : list A) : M W (list B) :=
  match xs with
  | [] => ret []
  | x :: xs' => (y <- f x ;; ys <- mapM f xs' ;; ret (y :: ys))%py
  end.

(** [[x for x in xs if p x]], the test evaluated left to right. *)
Fixpoint filterM {W A} (p : A -> M W bool) (xs : list A) : M W (list A) :=
  match xs with
  | [] => ret []
  | x :: xs' =>
      (b <- p x ;; ys <- filterM p xs' ;; ret (if b then x :: ys else ys))%py
  end.

(** A [for] loop that updates an accumulator. *)
Fixpoint foldM {W A B} (f : B -> A -> M W B) (acc : B) (xs : list A) : M W B :=
  match xs with
  | [] => ret acc
  | x :: xs' => (acc' <- f acc x ;; foldM f acc' xs')%py
  end.

(** [xs[-1] if xs else None] *)
Fixpoint last_opt {A} (xs : list A) : option A :=
  match xs with
  | [] => None
  | [x] => Some x
  | _ :: xs' => last_opt xs'
  end.

(** ** Numbers and text *)

(** [str(n)] for an [int]. *)
Definition str_int (n : Z) : string := NilZero.string_of_int (Z.to_int n).

(** Round to the nearest integer, ties to even. *)
Definition round_half_even (q : Q) : Z :=
  let n := Qnum q in
  let d := Z.pos (Qden q) in
  let fl := n / d in
  let r2 := 2 * (n mod d) in
  if r2 <? d then fl
  else if d <? r2 then fl + 1
  else if Z.even fl then fl else fl + 1.

(** [round(x, 2)] on the rational that [x] denotes.  Python rounds the
    double [x] and returns the double nearest to the result: the two agree on
    the sign, on bounds that are doubles themselves, and on 0 and 100, not on
    every digit. *)
Definition round2 (q : Q) : Q := Qred (round_half_even (q * 100) # 100).

(** [sum(1 for x in xs if p x)] *)
Definition count {A} (p : A -> bool) (xs : list A) : nat :=
  length (filter p xs).

(** ** Naive datetimes and timedeltas *)

Definition datetime := Z.

Definition US_PER_HOUR : Z := 3600 * 1000000.
Definition US_PER_DAY : Z := 24 * US_PER_HOUR.
(** [date.max.toordinal()] is 3652059: the last day is 9999-12-31. *)
Definition MAXORDINAL : Z := 3652059.
Definition MAX_DELTA_DAYS : Z := 999999999.

Definition datetime_in_range (t : Z) : bool :=
  (0 <=? t) && (t <? MAXORDINAL * US_PER_DAY).

(** [datetime.timedelta(hours=h)], in microseconds; more than
    [MAX_DELTA_DAYS] days in magnitude is an [OverflowError]. *)
Definition timedelta_hours (h : Z) : result Z :=
  let us := h * US_PER_HOUR in
  if Z.abs (us / US_PER_DAY) <=? MAX_DELTA_DAYS then Ok us
  else Raise OverflowError.

(** [t - delta] for a datetime [t]: a result outside years 1..9999 is an
    [OverflowError]. *)
Definition datetime_sub (t delta : Z) : result datetime :=
  let r := t - delta in
  if datetime_in_range r then Ok r
  else Raise OverflowError.

Definition lift {W A} (r : result A) : M W A := fun w => (r, w).

(** The status of the interpreter when the main function ends: the argument of
    [sys.exit], or 1 when an exception goes uncaught. *)
Definition exit_status (r : result Z) : Z :=
  match r with
  | Ok code => code
  | Raise _ => 1
  end.

(** * app_health_checker.py *)

Module App.

Local Open Scope string_scope.
Local Open Scope Z_scope.

Inductive Health : Type := UP | DEGRADED | DOWN.

Definition Health_eqb (a b : Health) : bool :=
  match a, b with
  | UP, UP | DEGRADED, DEGRADED | DOWN, DOWN => true
  | _, _ => false
  end.

(** An entry of [APPLICATIONS]; ['expected_status'] and ['timeout'] are read
    with [dict.get] and may be absent. *)
Record AppConfig : Type := {
  cfg_name : string;
  cfg_url : string;
  cfg_expected_status : option Z;
  cfg_timeout : option Z
}.

Definition APPLICATIONS : list AppConfig :=
  [ {| cfg_name := "Wisecow App"; cfg_url := "http://3.94.125.204:31134";
       cfg_expected_status := Some 200; cfg_timeout := Some 5 |};
    {| cfg_name := "Example API"; cfg_url := "https://httpbin.org/status/200";
       cfg_expected_status := Some 200; cfg_timeout := Some 10 |} ].

(** The [status] dict of [check_health].  A key that a branch leaves out, and a
    key it sets to [None], are both [None] here (the script reads them with
    [dict.get]). *)
Record CheckResult : Type := {
  timestamp : datetime;
  application : string;
  r_url : string;
  status_code : option Z;
  r_expected_status : Z;
  response_time_ms : option Q;
  health : Health;
  message : string;
  error : option string;
  headers : option (list (string * string))
}.

Record ApplicationHealthChecker : Type := {
  name : string;
  url : string;
  expected_status : Z;
  timeout : Z;
  history : list CheckResult
}.

(** [ApplicationHealthChecker.__init__] *)
Definition init (app_config : AppConfig) : ApplicationHealthChecker :=
  {| name := cfg_name app_config;
     url := cfg_url app_config;
     expected_status :=
       match cfg_expected_status app_config with Some s => s | None => 200 end;
     timeout := match cfg_timeout app_config with Some t => t | None => 5 end;
     history := [] |}.

(** [self.history.append(status)] *)
Definition append_history (self : ApplicationHealthChecker) (status : CheckResult)
  : ApplicationHealthChecker :=
  {| name := name self; url := url self;
     expected_status := expected_status self; timeout := timeout self;
     history := (history self ++ [status])%list |}.

(** What [requests.get] does, by the [except] clause that receives it.
    [RaisedTimeout] is any instance of [Timeout] (a [ConnectTimeout] too: that
    clause comes first); [RaisedUnexpected] is an exception outside the
    [RequestException] hierarchy. *)
Inductive RequestOutcome : Type :=
| Responded (code : Z) (hdrs : list (string * string))
| RaisedTimeout
| RaisedConnectionError (text : string)
| RaisedRequestException (text : string)
| RaisedUnexpected (e : exn).

Inductive Level : Type := INFO | WARNING | ERROR.

(** The log lines of the script, with the values they interpolate. *)
Inductive Event : Type :=
| EvStarting
| EvUp (app : string) (code : Z) (response_time : Q)
| EvDegraded (app : string) (expected got : Z)
| EvDownTimeout (app : string) (timeout_s : Z)
| EvDownConnection (app : string) (text : string)
| EvDownRequest (app : string) (text : string)
| EvReportSaved
| EvReportFailed (text : string)
| EvAppsDown (n : nat)
| EvAppsDegraded (n : nat)
| EvAllUp
| EvCheckFailed (e : exn).

Record Summary : Type := {
  total_applications : nat;
  up : nat;
  degraded : nat;
  down : nat
}.

Record AppReport : Type := {
  ar_name : string;
  ar_url : string;
  current_status : Health;
  ar_status_code : option Z;
  ar_response_time_ms : option Q;
  ar_message : string;
  uptime_24h : Q;
  last_check : datetime
}.

Record Report : Type := {
  generated_at : datetime;
  summary : Summary;
  applications : list AppReport
}.

(** What [open(REPORT_FILE, 'w')] followed by [json.dump] does. *)
Inductive WriteOutcome : Type :=
| Written
| OpenFailed (text : string)
| DumpFailed (text : string).

Inductive FileContent : Type :=
| NoFile
| Complete (r : Report)
| Truncated.

Record Env : Type := {
  (** the k-th reading of [datetime.datetime.now()] *)
  datetime_now : nat -> datetime;
  (** the k-th reading of [time.time()], in seconds *)
  time_time : nat -> Q;
  (** the k-th call of [requests.get], on a url and a timeout *)
  requests_get : nat -> string -> Z -> RequestOutcome;
  (** writing a report to [REPORT_FILE] *)
  write_report : Report -> WriteOutcome
}.

Record World : Type := {
  now_reads : nat;
  time_reads : nat;
  requests_made : nat;
  log : list (Level * Event);
  report_file : FileContent
}.

Definition initial_world : World :=
  {| now_reads := 0; time_reads := 0; requests_made := 0; log := [];
     report_file := NoFile |}.

Definition logger (l : Level) (e : Event) : M World unit :=
  modify (fun w =>
    {| now_reads := now_reads w; time_reads := time_reads w;
       requests_made := requests_made w; log := (log w ++ [(l, e)])%list;
       report_file := report_file w |}).

Definition set_report_file (c : FileContent) : M World unit :=
  modify (fun w =>
    {| now_reads := now_reads w; time_reads := time_reads w;
       requests_made := requests_made w; log := log w;
       report_file := c |}).

Section WithEnv.

Variable env : Env.

Definition now : M World datetime :=
  fun w => (Ok (datetime_now env (now_reads w)),
            {| now_reads := S (now_reads w); time_reads := time_reads w;
               requests_made := requests_made w; log := log w;
               report_file := report_file w |}).

Definition time : M World Q :=
  fun w => (Ok (time_time env (time_reads w)),
            {| now_reads := now_reads w; time_reads := S (time_reads w);
               requests_made := requests_made w; log := log w;
               report_file := report_file w |}).

Definition get_request (u : string) (t : Z) : M World RequestOutcome :=
  fun w => (Ok (requests_get env (requests_made w) u t),
            {| now_reads := now_reads w; time_reads := time_reads w;
               requests_made := S (requests_made w); log := log w;
               report_file := report_file w |}).

(** The [status_messages] dict of [_get_status_message]. *)
Definition status_messages : list (Z * string) :=
  [ (200, "OK - Application is functioning correctly");
    (201, "Created - Request successful");
    (204, "No Content - Request successful");
    (301, "Moved Permanently - Redirect");
    (302, "Found - Temporary redirect");
    (400, "Bad Request - Invalid request");
    (401, "Unauthorized - Authentication required");
    (403, "Forbidden - Access denied");
    (404, "Not Found - Resource does not exist");
    (500, "Internal Server Error - Application error");
    (502, "Bad Gateway - Upstream server error");
    (503, "Service Unavailable - Application temporarily unavailable");
    (504, "Gateway Timeout - Upstream timeout") ].

(** [d.get(k, default)] *)
Fixpoint dict_get {V} (d : list (Z * V)) (k : Z) (default : V) : V :=
  match d with
  | [] => default
  | (k', v) :: d' => if k' =? k then v else dict_get d' k default
  end.

Definition _get_status_message (code : Z) : string :=
  dict_get status_messages code ("HTTP " ++ str_int code)%string.

Definition check_health (self : ApplicationHealthChecker)
  : M World (CheckResult * ApplicationHealthChecker) :=
  (ts <- now ;;
   start_time <- time ;;
   outcome <- get_request (url self) (timeout self) ;;
   status <-
     match outcome with
     | Responded code hdrs =>
         end_time <- time ;;
         let response_time := ((end_time - start_time) * 1000)%Q in
         let status :=
           {| timestamp := ts; application := name self; r_url := url self;
              status_code := Some code;
              r_expected_status := expected_status self;
              response_time_ms := Some (round2 response_time);
              health := if code =? expected_status self then UP else DEGRADED;
              message := _get_status_message code;
              error := None;
              headers := Some hdrs |} in
         (if Health_eqb (health status) UP
          then logger INFO (EvUp (name self) code response_time)
          else logger WARNING (EvDegraded (name self) (expected_status self) code)) ;;;
         ret status
     | RaisedTimeout =>
         logger ERROR (EvDownTimeout (name self) (timeout self)) ;;;
         ret {| timestamp := ts; application := name self; r_url := url self;
                status_code := None;
                r_expected_status := expected_status self;
                response_time_ms := None;
                health := DOWN;
                message := ("Request timeout after " ++ str_int (timeout self)
                            ++ " seconds")%string;
                error := Some "TIMEOUT";
                headers := None |}
     | RaisedConnectionError e =>
         logger ERROR (EvDownConnection (name self) e) ;;;
         ret {| timestamp := ts; application := name self; r_url := url self;
                status_code := None;
                r_expected_status := expected_status self;
                response_time_ms := None;
                health := DOWN;
                message := "Connection failed - Application unreachable";
                error := Some e;
                headers := None |}
     | RaisedRequestException e =>
         logger ERROR (EvDownRequest (name self) e) ;;;
         ret {| timestamp := ts; application := name self; r_url := url self;
                status_code := None;
                r_expected_status := expected_status self;
                response_time_ms := None;
                health := DOWN;
                message := "Request failed";
                error := Some e;
                headers := None |}
     | RaisedUnexpected e => raise e
     end ;;
   ret (status, append_history self status))%py.

(** [_is_recent]: the clock is read at every call. *)
Definition _is_recent (ts : datetime) (hours : Z) : M World bool :=
  (let check_time := ts in
   t <- now ;;
   delta <- lift (timedelta_hours hours) ;;
   cutoff_time <- lift (datetime_sub t delta) ;;
   ret (cutoff_time <? check_time))%py.

(** [get_uptime_percentage].  The quotient and the product of line 171 are
    exact here and rounded to doubles in Python: the two agree when the value
    is 0 or 100, on the bounds 0 and 100, and in that equal counts give equal
    values. *)
Definition get_uptime_percentage (self : ApplicationHealthChecker) (hours : Z)
  : M World Q :=
  match history self with
  | [] => ret 0%Q
  | _ =>
      (recent_checks <-
         filterM (fun h => _is_recent (timestamp h) hours) (history self) ;;
       match recent_checks with
       | [] => ret 0%Q
       | _ =>
           let up_count :=
             count (fun h => Health_eqb (health h) UP) recent_checks in
           ret ((inject_Z (Z.of_nat up_count)
                 / inject_Z (Z.of_nat (length recent_checks))) * 100)%Q
       end)%py
  end.

(** One round of the [for checker in checkers] loop of [generate_report]:
    the summary counts and the ['applications'] list are updated in place.
    The uptime is computed twice, for the report and for the console. *)
Definition report_checker (acc : Summary * list AppReport)
  (checker : ApplicationHealthChecker) : M World (Summary * list AppReport) :=
  match last_opt (history checker) with
  | None => ret acc
  | Some latest_status =>
      let s := fst acc in
      let s' :=
        match health latest_status with
        | UP => {| total_applications := total_applications s;
                   up := S (up s); degraded := degraded s; down := down s |}
        | DEGRADED => {| total_applications := total_applications s;
                         up := up s; degraded := S (degraded s); down := down s |}
        | DOWN => {| total_applications := total_applications s;
                     up := up s; degraded := degraded s; down := S (down s) |}
        end in
      (uptime <- get_uptime_percentage checker 24 ;;
       let app_report :=
         {| ar_name := name checker;
            ar_url := url checker;
            current_status := health latest_status;
            ar_status_code := status_code latest_status;
            ar_response_time_ms := response_time_ms latest_status;
            ar_message := message latest_status;
            uptime_24h := round2 uptime;
            last_check := timestamp latest_status |} in
       _ <- get_uptime_percentage checker 24 ;;
       ret (s', (snd acc ++ [app_report])%list))%py
  end.

Definition generate_report (checkers : list ApplicationHealthChecker)
  : M World Report :=
  (generated <- now ;;
   let summary0 :=
     {| total_applications := length checkers;
        up := 0; degraded := 0; down := 0 |} in
   _ <- now ;;
   acc <- foldM report_checker (summary0, []) checkers ;;
   let report :=
     {| generated_at := generated; summary := fst acc;
        applications := snd acc |} in
   match write_report env report with
   | Written =>
       set_report_file (Complete report) ;;; logger INFO EvReportSaved
   | OpenFailed e => logger ERROR (EvReportFailed e)
   | DumpFailed e =>
       set_report_file Truncated ;;; logger ERROR (EvReportFailed e)
   end ;;;
   ret report)%py.

(** The [for checker in checkers: checker.check_health()] loop: every checker
    object is updated in place. *)
Definition check_all (checkers : list ApplicationHealthChecker)
  : M World (list ApplicationHealthChecker) :=
  mapM (fun c => (r <- check_health c ;; ret (snd r))%py) checkers.

(** The [try] block of [main], on the list of applications; the value is the
    argument of [sys.exit]. *)
Definition main_body (apps : list AppConfig) : M World Z :=
  (let checkers := map init apps in
   checkers' <- check_all checkers ;;
   report <- generate_report checkers' ;;
   if (0 <? down (summary report))%nat then
     logger ERROR (EvAppsDown (down (summary report))) ;;; ret 1
   else if (0 <? degraded (summary report))%nat then
     logger WARNING (EvAppsDegraded (degraded (summary report))) ;;; ret 0
   else
     logger INFO EvAllUp ;;; ret 0)%py.

(** [main], on a list of applications. *)
Definition main_on (apps : list AppConfig) : M World Z :=
  (logger INFO EvStarting ;;;
   try_except (main_body apps)
     (fun e => logger ERROR (EvCheckFailed e) ;;; ret 2))%py.

Definition main : M World Z := main_on APPLICATIONS.

(** The exit status of the process that runs [main_on apps] from a world [w]. *)
Definition exit_code (apps : list AppConfig) (w : World) : Z :=
  exit_status (fst (main_on apps w)).

(** *** Vocabulary of the statements *)

(** The instant [t - timedelta(hours=h)] that [_is_recent] compares with. *)
Definition cutoff (t : datetime) (hours : Z) : result datetime :=
  match timedelta_hours hours with
  | Ok delta => datetime_sub t delta
  | Raise e => Raise e
  end.

(** The outcomes the requests of [check_all checkers] receive when the first of
    them is request number [k]. *)
Fixpoint outcomes (k : nat) (checkers : list ApplicationHealthChecker)
  : list RequestOutcome :=
  match checkers with
  | [] => []
  | c :: rest => requests_get env k (url c) (timeout c) :: outcomes (S k) rest
  end.

(** The outcome of the request that [check_health] makes in world [w]. *)
Definition request_of (self : ApplicationHealthChecker) (w : World)
  : RequestOutcome :=
  requests_get env (requests_made w) (url self) (timeout self).

(** Every reading of the clock leaves room for a lookback of 24 hours. *)
Definition clock_ok : Prop :=
  forall k, datetime_in_range (datetime_now env k - 24 * US_PER_HOUR) = true.

End WithEnv.

Definition responded (o : RequestOutcome) : bool :=
  match o with Responded _ _ => true | _ => false end.

(** A failure that an [except] clause of [check_health] recovers. *)
Definition failed (o : RequestOutcome) : bool :=
  match o with
  | RaisedTimeout | RaisedConnectionError _ | RaisedRequestException _ => true
  | _ => false
  end.

Definition unexpected (o : RequestOutcome) : bool :=
  match o with RaisedUnexpected _ => true | _ => false end.

(** The verdict of the latest result of a checker, if it has one. *)
Definition latest_health (c : ApplicationHealthChecker) : option Health :=
  option_map health (last_opt (history c)).

Definition is_up (h : CheckResult) : bool := Health_eqb (health h) UP.

Definition latest_is (v : Health) (c : ApplicationHealthChecker) : bool :=
  match latest_health c with
  | Some v' => Health_eqb v' v
  | None => false
  end.

(** What a checker adds to the count of verdict [v] in the summary. *)
Definition bump (v : Health) (c : ApplicationHealthChecker) : nat :=
  if latest_is v c then 1%nat else 0%nat.


(** The same environment with another file system. *)
Definition with_write_report (env : Env) (f : Report -> WriteOutcome) : Env :=
  {| datetime_now := datetime_now env; time_time := time_time env;
     requests_get := requests_get env; write_report := f |}.

(** The world in which the [try] block of [main] starts. *)
Definition started (w : World) : World := snd (logger INFO EvStarting w).

(** *** Sample inputs *)

Definition hours_us (h : Z) : Z := h * US_PER_HOUR.

(** Noon of some day, far from both ends of the calendar. *)
Definition noon : datetime := hours_us (24 * 738000 + 12).

(** A network that answers every request by [o]; a clock that advances one
    second per reading from [noon]; a report file that can be written. *)
Definition env_answering (o : RequestOutcome) : Env :=
  {| datetime_now := fun k => noon + 1000000 * Z.of_nat k;
     time_time := fun k => (inject_Z (Z.of_nat k) * (3 # 25))%Q;
     requests_get := fun _ _ _ => o;
     write_report := fun _ => Written |}.

(** The same with a clock that stands at [noon]. *)
Definition env_still (o : RequestOutcome) : Env :=
  {| datetime_now := fun _ => noon;
     time_time := fun k => (inject_Z (Z.of_nat k) * (3 # 25))%Q;
     requests_get := fun _ _ _ => o;
     write_report := fun _ => Written |}.

Definition env_frozen : Env := env_still (Responded 200 []).

(** A network on which the second request times out and every other request
    is answered with 200. *)
Definition env_second_down : Env :=
  {| datetime_now := fun k => noon + 1000000 * Z.of_nat k;
     time_time := fun k => (inject_Z (Z.of_nat k) * (3 # 25))%Q;
     requests_get := fun k _ _ =>
       match k with 1%nat => RaisedTimeout | _ => Responded 200 [] end;
     write_report := fun _ => Written |}.

Definition wisecow : AppConfig :=
  {| cfg_name := "Wisecow App"; cfg_url := "http://3.94.125.204:31134";
     cfg_expected_status := Some 200; cfg_timeout := Some 5 |}.

(** A result of the Wisecow checker recorded at [ts] with verdict [v]. *)
Definition entry (ts : datetime) (v : Health) : CheckResult :=
  {| timestamp := ts; application := cfg_name wisecow;
     r_url := cfg_url wisecow;
     status_code := match v with UP => Some 200 | DEGRADED => Some 503
                                 | DOWN => None end;
     r_expected_status := 200;
     response_time_ms := match v with DOWN => None | _ => Some (120 # 1) end;
     health := v;
     message := match v with
                | UP => "OK - Application is functioning correctly"
                | DEGRADED =>
                    "Service Unavailable - Application temporarily unavailable"
                | DOWN => "Request failed"
                end;
     error := match v with DOWN => Some "refused" | _ => None end;
     headers := match v with DOWN => None | _ => Some [] end |}.

Definition with_history (hist : list CheckResult) : ApplicationHealthChecker :=
  {| name := cfg_name wisecow; url := cfg_url wisecow; expected_status := 200;
     timeout := 5; history := hist |}.


(** Four results: 30 hours old, exactly 24 hours old, and two of the last
    two hours, one of them DEGRADED. *)
Definition checker_with_four : ApplicationHealthChecker :=
  with_history [entry (noon - hours_us 30) UP; entry (noon - hours_us 24) UP;
                entry (noon - hours_us 2) DEGRADED; entry (noon - hours_us 1) UP].

(** *** The window of the rolling uptime *)





(** The same as [env_still o] on a file system that refuses to open the
    report file. *)
Definition env_still_read_only (o : RequestOutcome) : Env :=
  with_write_report (env_still o) (fun _ => OpenFailed "Permission denied").

(** *** Vocabulary of the further statements *)

(** The keys of [status_messages]. *)
Definition listed_codes : list Z := map fst status_messages.

(** The optional fields of a result agree with its verdict: a status code, a
    latency and headers are there exactly when the verdict is not DOWN, an
    error exactly when it is, and the verdict is UP exactly when the status
    code is the expected one. *)
Definition consistent (r : CheckResult) : Prop :=
  (health r = DOWN <-> status_code r = None)
  /\ (status_code r = None <-> response_time_ms r = None)
  /\ (status_code r = None <-> headers r = None)
  /\ (status_code r = None <-> error r <> None)
  /\ (health r = UP <-> status_code r = Some (r_expected_status r)).

(** A result carries the name, the url and the expected status of [c]. *)
Definition describes_target (c : ApplicationHealthChecker) (r : CheckResult)
  : Prop :=
  application r = name c /\ r_url r = url c
  /\ r_expected_status r = expected_status c.

(** The timestamp of a result is one of the first [n] readings of the clock. *)
Definition from_clock (env : Env) (n : nat) (r : CheckResult) : Prop :=
  exists k, (k < n)%nat /\ timestamp r = datetime_now env k.

(** A clock that never goes back. *)
Definition monotone_clock (env : Env) : Prop :=
  forall i j, (i <= j)%nat -> datetime_now env i <= datetime_now env j.

Definition has_history (c : ApplicationHealthChecker) : bool :=
  match history c with [] => false | _ => true end.

(** An entry of the report copies the checker and its latest result. *)
Definition summarises (c : ApplicationHealthChecker) (a : AppReport) : Prop :=
  exists latest,
    last_opt (history c) = Some latest
    /\ ar_name a = name c /\ ar_url a = url c
    /\ current_status a = health latest
    /\ ar_status_code a = status_code latest
    /\ ar_response_time_ms a = response_time_ms latest
    /\ ar_message a = message latest
    /\ last_check a = timestamp latest.

(** Two checkers have the same configuration. *)
Definition same_target (c c' : ApplicationHealthChecker) : Prop :=
  name c' = name c /\ url c' = url c
  /\ expected_status c' = expected_status c /\ timeout c' = timeout c.

(** The history holds one result, stamped with a reading of the clock. *)
Definition checked_once (env : Env) (c : ApplicationHealthChecker) : Prop :=
  exists r k, history c = [r] /\ timestamp r = datetime_now env k.

(** Any two readings of the clock are less than 24 hours apart. *)
Definition short_run (env : Env) : Prop :=
  forall i j, datetime_now env j - 24 * US_PER_HOUR < datetime_now env i.

(** A network whose request number [k] raises an exception that
    [check_health] does not recover, every other request being answered. *)
Definition env_breaking_at (k : nat) : Env :=
  {| datetime_now := fun i => noon + 1000000 * Z.of_nat i;
     time_time := fun i => (inject_Z (Z.of_nat i) * (3 # 25))%Q;
     requests_get := fun i _ _ =>
       if Nat.eqb i k then RaisedUnexpected TypeError else Responded 200 [];
     write_report := fun _ => Written |}.

End App.

(** * system_health_monitor.py *)

Module Sys.

Local Open Scope string_scope.
Local Open Scope Z_scope.

(** ** The module as Python receives it

    Python compiles a module as a whole before it runs the first of its
    statements.  Line 132, the ['details'] entry of the dict that
    [check_running_processes] builds, is an f-string that holds another
    f-string written with backslash-escaped quotes, so a backslash stands in
    its replacement field.  No version of the compiler accepts that: before
    3.12 the expression part of an f-string cannot include a backslash, and
    from 3.12 on this backslash stands outside every string literal, where it
    is a line continuation that no newline follows.  A module that is refused
    ends the process with [SyntaxError] and status 1: the logging is not
    configured, no function is defined and [main] is not called. *)

(** The double quote and the backslash. *)
Definition quote : Ascii.ascii := Ascii.ascii_of_nat 34.
Definition backslash : Ascii.ascii := Ascii.ascii_of_nat 92.
Definition dq : string := String quote EmptyString.
Definition bs : string := String backslash EmptyString.

(** The f-string of line 132, from the character after its opening quote to
    its closing quote. *)
Definition details_fstring : string :=
  "Top CPU consumers: {[f" ++ bs ++ dq
  ++ "{p['name']}({p['cpu_percent']:.1f}%)" ++ bs ++ dq
  ++ " for p in top_processes]}" ++ dq.

(** The f-strings of lines 52 and 57, for comparison. *)
Definition per_core_fstring : string := "Per core: {cpu_per_core}" ++ dq.

Definition cpu_alert_fstring : string :=
  "CPU usage critical: {cpu_percent}% (Threshold: {THRESHOLDS['cpu_percent']}%)"
  ++ dq.

(** Where the scan of an f-string stands: in its text, in a replacement field
    at some depth of braces, or in a string literal inside a replacement
    field. *)
Inductive Place : Type :=
| Text
| Field (depth : nat)
| Inner (depth : nat).

(** Scans an f-string from the character after its opening quote; the answer
    is [true] when a backslash stands in a replacement field outside a string
    literal. *)
Fixpoint stray_backslash (place : Place) (s : string) : bool :=
  match s with
  | EmptyString => false
  | String c rest =>
      match place with
      | Text =>
          if Ascii.eqb c backslash then
            match rest with
            | EmptyString => false
            | String _ rest' => stray_backslash Text rest'
            end
          else if Ascii.eqb c quote then false
          else if Ascii.eqb c "{"%char then
            match rest with
            | EmptyString => false
            | String c' rest' =>
                if Ascii.eqb c' "{"%char then stray_backslash Text rest'
                else stray_backslash (Field 0) rest
            end
          else stray_backslash Text rest
      | Field depth =>
          if Ascii.eqb c backslash then true
          else if Ascii.eqb c "'"%char then stray_backslash (Inner depth) rest
          else if Ascii.eqb c "{"%char then
            stray_backslash (Field (S depth)) rest
          else if Ascii.eqb c "}"%char then
            match depth with
            | O => stray_backslash Text rest
            | S d => stray_backslash (Field d) rest
            end
          else stray_backslash (Field depth) rest
      | Inner depth =>
          if Ascii.eqb c backslash then
            match rest with
            | EmptyString => false
            | String _ rest' => stray_backslash (Inner depth) rest'
            end
          else if Ascii.eqb c "'"%char then stray_backslash (Field depth) rest
          else stray_backslash (Inner depth) rest
      end
  end.

(** ** The machine and the traces of a run *)

Record Memory : Type := { mem_percent : Q; mem_used : Z; mem_total : Z }.
Record Usage : Type := { usage_percent : Q; usage_used : Z; usage_total : Z }.

(** An entry of [proc.info]; psutil leaves [None] where access was denied. *)
Record ProcInfo : Type := {
  pid : Z;
  pname : option string;
  pcpu : option Q;
  pmem : option Q
}.

(** What psutil would answer on a machine.  Every call returns or raises. *)
Record Env : Type := {
  psutil_cpu_percent : result Q;
  psutil_cpu_percent_percpu : result (list Q);
  psutil_virtual_memory : result Memory;
  psutil_swap_memory : result Q;
  (** the mount points of [psutil.disk_partitions()] *)
  psutil_disk_partitions : result (list string);
  (** the k-th call of [psutil.disk_usage], on a mount point *)
  psutil_disk_usage : nat -> string -> result Usage;
  psutil_pids : result (list Z);
  psutil_process_iter : result (list ProcInfo)
}.

Inductive Level : Type := LInfo | LWarning | LError.

(** What a run leaves behind: the lines of [LOG_FILE] and of [ALERT_LOG] and
    the number of calls of [psutil.disk_usage] made so far. *)
Record World : Type := {
  disk_usage_calls : nat;
  log : list (Level * string);
  alert_log : list string
}.

Definition initial_world : World :=
  {| disk_usage_calls := 0; log := []; alert_log := [] |}.

(** ** Running the script

    [statements] stands for what the statements of the module do once they
    run; a module that is refused runs none of them. *)
Definition run_script (statements : Env -> World -> Z * World)
  (env : Env) (w : World) : Z * World :=
  if stray_backslash Text details_fstring then (1, w)
  else statements env w.

(** ** Sample machines *)

Definition GiB : Z := 1024 * 1024 * 1024.

(** A machine with every metric below its threshold: CPU 12 (threshold 80),
    memory 40 (80), one partition at 50 (85), 120 processes (300). *)
Definition env_quiet : Env :=
  {| psutil_cpu_percent := Ok (12 # 1);
     psutil_cpu_percent_percpu := Ok [12 # 1];
     psutil_virtual_memory :=
       Ok {| mem_percent := 40 # 1; mem_used := 4 * GiB; mem_total := 10 * GiB |};
     psutil_swap_memory := Ok (0 # 1);
     psutil_disk_partitions := Ok ["/"];
     psutil_disk_usage := fun _ _ =>
       Ok {| usage_percent := 50 # 1; usage_used := 50 * GiB;
             usage_total := 100 * GiB |};
     psutil_pids := Ok (map Z.of_nat (seq 1 120));
     psutil_process_iter := Ok [] |}.



End Sys.

(** * Properties of app_health_checker.py *)

Module AppFacts.

Import App.
Local Open Scope Z_scope.

(** Unfolds the plumbing of the monad and of the oracles. *)
Ltac run :=
  cbv beta iota delta
    [bind ret raise lift try_except modify logger set_report_file
     now time get_request fst snd].

(** *** Scenarios *)

(** A 200 that arrives after 120 ms. *)
Example scenario_healthy :
  exists r c w,
    check_health (env_answering (Responded 200 [])) (init wisecow) initial_world
    = (Ok (r, c), w)
    /\ health r = UP /\ status_code r = Some 200
    /\ response_time_ms r = Some (120 # 1)
    /\ history c = [r].
Proof. do 3 eexists. split; [vm_compute; reflexivity|]. repeat split. Qed.

(** A 503 where 200 is expected. *)
Example scenario_degraded :
  exists r c w,
    check_health (env_answering (Responded 503 [])) (init wisecow) initial_world
    = (Ok (r, c), w)
    /\ health r = DEGRADED /\ status_code r = Some 503
    /\ message r
       = "Service Unavailable - Application temporarily unavailable"%string.
Proof. do 3 eexists. split; [vm_compute; reflexivity|]. repeat split. Qed.

(** A status code that the table does not list. *)
Example scenario_unlisted_code : _get_status_message 418 = "HTTP 418"%string.
Proof. reflexivity. Qed.

(** One target out of three is unavailable. *)
Example scenario_one_of_three_down :
  exit_code env_second_down [wisecow; wisecow; wisecow] initial_world = 1.
Proof. vm_compute. reflexivity. Qed.

(** The uptime of the four sample results, seen at noon: two are in the
    window, one of them UP. *)
Example scenario_uptime :
  exists v,
    fst (get_uptime_percentage env_frozen checker_with_four 24 initial_world)
    = Ok v
    /\ (v == 50)%Q.
Proof. eexists. split; [vm_compute; reflexivity|reflexivity]. Qed.

Section Checks.

Variable env : Env.

Lemma check_health_responded self w code hdrs :
  request_of env self w = Responded code hdrs ->
  exists r w',
    check_health env self w = (Ok (r, append_history self r), w')
    /\ health r = (if code =? expected_status self then UP else DEGRADED)
    /\ status_code r = Some code
    /\ timestamp r = datetime_now env (now_reads w)
    /\ requests_made w' = S (requests_made w)
    /\ now_reads w' = S (now_reads w).
Proof.
  unfold request_of. intros Hreq.
  unfold check_health. run. cbn [requests_made now_reads time_reads].
  rewrite Hreq.
  destruct (code =? expected_status self) eqn:Hcode; cbn [health Health_eqb];
    eexists; eexists; (split; [reflexivity|]); cbn; rewrite ?Hcode; auto.
Qed.

Lemma check_health_failed self w :
  failed (request_of env self w) = true ->
  exists r w',
    check_health env self w = (Ok (r, append_history self r), w')
    /\ health r = DOWN
    /\ status_code r = None
    /\ response_time_ms r = None
    /\ timestamp r = datetime_now env (now_reads w)
    /\ requests_made w' = S (requests_made w)
    /\ now_reads w' = S (now_reads w).
Proof.
  unfold request_of. intros Hreq.
  unfold check_health. run. cbn [requests_made now_reads time_reads].
  destruct (requests_get env (requests_made w) (url self) (timeout self));
    try discriminate Hreq;
    eexists; eexists; (split; [reflexivity|]); cbn; repeat split.
Qed.

Lemma check_health_unexpected self w e :
  request_of env self w = RaisedUnexpected e ->
  exists w', check_health env self w = (Raise e, w')
             /\ requests_made w' = S (requests_made w).
Proof.
  unfold request_of. intros Hreq.
  unfold check_health. run. cbn [requests_made now_reads time_reads].
  rewrite Hreq. eexists; split; reflexivity.
Qed.

Lemma outcome_cases (o : RequestOutcome) :
  responded o = true \/ failed o = true \/ unexpected o = true.
Proof. destruct o; cbn; auto. Qed.

(** *** The rolling uptime *)

Lemma is_recent_run ts hours w :
  exists w',
    _is_recent env ts hours w
    = (match cutoff (datetime_now env (now_reads w)) hours with
       | Ok c => Ok (c <? ts)
       | Raise e => Raise e
       end, w')
    /\ now_reads w' = S (now_reads w).
Proof.
  unfold _is_recent, cutoff. run.
  destruct (timedelta_hours hours) as [delta|e]; cbn [now_reads].
  - destruct (datetime_sub _ delta); eexists; split; reflexivity.
  - eexists; split; reflexivity.
Qed.

Lemma cutoff_raises t hours e : cutoff t hours = Raise e -> e = OverflowError.
Proof.
  unfold cutoff, timedelta_hours, datetime_sub.
  destruct (Z.abs _ <=? MAX_DELTA_DAYS); [|congruence].
  destruct (datetime_in_range _); congruence.
Qed.

Lemma cutoff_value t hours c :
  cutoff t hours = Ok c -> c = t - hours * US_PER_HOUR.
Proof.
  unfold cutoff, timedelta_hours, datetime_sub.
  destruct (Z.abs _ <=? MAX_DELTA_DAYS); [|congruence].
  destruct (datetime_in_range _); congruence.
Qed.

(** With a clock that moves, every entry is compared with the cutoff of the
    reading made for it. *)
Lemma recent_checks_by_reading hours : forall hs w l w',
  filterM (fun h => _is_recent env (timestamp h) hours) hs w = (Ok l, w') ->
  forall h,
    In h l <->
    exists i c,
      nth_error hs i = Some h
      /\ cutoff (datetime_now env (now_reads w + i)) hours = Ok c
      /\ c < timestamp h.
Proof.
  induction hs as [|h0 hs IH]; intros w l w' Hrun h.
  - cbn in Hrun. injection Hrun as <- <-. split; [intros []|].
    intros (i & c & Hnth & _). now destruct i.
  - cbn [filterM] in Hrun. unfold bind at 1 in Hrun.
    destruct (is_recent_run (timestamp h0) hours w) as (w1 & Hrec & Hreads).
    rewrite Hrec in Hrun.
    destruct (cutoff (datetime_now env (now_reads w)) hours) as [c0|e] eqn:Hc0;
      [|discriminate].
    unfold bind at 1 in Hrun.
    destruct (filterM _ hs w1) as [[l'|e] w2] eqn:Hrest; [|discriminate].
    injection Hrun as <- <-. specialize (IH w1 l' w2 Hrest h).
    assert (Hshift : forall i, (now_reads w1 + i = now_reads w + S i)%nat)
      by (intros i; rewrite Hreads; lia).
    split.
    + intros Hin.
      assert (Hcases : ((c0 <? timestamp h0) = true /\ h0 = h) \/ In h l').
      { destruct (c0 <? timestamp h0) eqn:Hlt; [|now right].
        destruct Hin as [<-|Hin]; [left; split; reflexivity|now right]. }
      destruct Hcases as [(Hlt & <-)|Hin'].
      * exists 0%nat, c0. rewrite Nat.add_0_r.
        split; [reflexivity|]. split; [exact Hc0|now apply Z.ltb_lt].
      * apply IH in Hin'. destruct Hin' as (i & c & Hnth & Hc & Hlt).
        exists (S i), c. rewrite <- Hshift. auto.
    + intros (i & c & Hnth & Hc & Hlt). destruct i as [|i].
      * cbn in Hnth. injection Hnth as <-.
        rewrite Nat.add_0_r, Hc0 in Hc. injection Hc as <-.
        apply Z.ltb_lt in Hlt. rewrite Hlt. now left.
      * cbn [nth_error] in Hnth. rewrite <- Hshift in Hc.
        assert (Hin' : In h l') by (apply IH; eauto).
        destruct (c0 <? timestamp h0); [now right|exact Hin'].
Qed.

(** Whatever the clock does, the comprehension returns a list or raises
    [OverflowError] at a reading whose cutoff is not a datetime. *)
Lemma recent_checks_total hours :
  forall hs w,
    match fst (filterM (fun h => _is_recent env (timestamp h) hours) hs w) with
    | Ok _ => True
    | Raise e =>
        e = OverflowError
        /\ exists k, (k < length hs)%nat
                     /\ cutoff (datetime_now env (now_reads w + k)) hours
                        = Raise OverflowError
    end.
Proof.
  induction hs as [|h hs IH]; intros w; [exact I|].
  cbn [filterM]. unfold bind at 1.
  destruct (is_recent_run (timestamp h) hours w) as (w1 & -> & Hreads).
  destruct (cutoff (datetime_now env (now_reads w)) hours) as [c|e] eqn:Hc.
  - specialize (IH w1). unfold bind at 1.
    destruct (filterM _ hs w1) as [[l|e] w2]; cbn [fst] in *; [exact I|].
    destruct IH as (-> & k & Hk & Hraise). split; [reflexivity|].
    exists (S k). split; [cbn; lia|].
    rewrite <- Hraise, Hreads. do 2 f_equal. lia.
  - cbn [fst]. pose proof (cutoff_raises _ _ _ Hc) as ->.
    split; [reflexivity|]. exists 0%nat. split; [cbn; lia|].
    rewrite Nat.add_0_r. exact Hc.
Qed.

(** [(a / b) * 100] for counts [a <= b]. *)
Lemma percentage_bounds (a b : nat) :
  (a <= b)%nat -> (0 < b)%nat ->
  (0 <= inject_Z (Z.of_nat a) / inject_Z (Z.of_nat b) * 100 <= 100)%Q.
Proof.
  intros Hab Hb.
  assert (Hb' : (0 < inject_Z (Z.of_nat b))%Q).
  { rewrite <- (Zlt_Qlt 0). lia. }
  assert (Ha' : (0 <= inject_Z (Z.of_nat a))%Q).
  { rewrite <- (Zle_Qle 0). lia. }
  assert (Hab' : (inject_Z (Z.of_nat a) <= inject_Z (Z.of_nat b))%Q).
  { rewrite <- Zle_Qle. lia. }
  split.
  - apply Qmult_le_0_compat; [|discriminate].
    apply Qle_shift_div_l; [exact Hb'|]. now rewrite Qmult_0_l.
  - setoid_replace 100%Q with (1 * 100)%Q at 2 by reflexivity.
    apply Qmult_le_compat_r; [|discriminate].
    apply Qle_shift_div_r; [exact Hb'|]. now rewrite Qmult_1_l.
Qed.


Lemma count_le {A} (p : A -> bool) (l : list A) : (count p l <= length l)%nat.
Proof.
  unfold count. induction l as [|x l IH]; cbn; [lia|].
  destruct (p x); cbn; lia.
Qed.


(** The value of [get_uptime_percentage] once [recent_checks] is known. *)
Lemma uptime_of_recent self hours w recent w1 :
  filterM (fun h => _is_recent env (timestamp h) hours) (history self) w
  = (Ok recent, w1) ->
  exists v w',
    get_uptime_percentage env self hours w = (Ok v, w')
    /\ (0 <= v <= 100)%Q
    /\ (recent = [] -> v = 0%Q)
    /\ (recent <> [] ->
        (v == inject_Z (Z.of_nat (count is_up recent))
              / inject_Z (Z.of_nat (length recent)) * 100)%Q).
Proof.
  intros Hrun. unfold get_uptime_percentage.
  destruct (history self) as [|h hs] eqn:Hh.
  - cbn in Hrun. injection Hrun as <- <-.
    exists 0%Q, w.
    split; [reflexivity|]. split; [split; discriminate|].
    split; [reflexivity|congruence].
  - unfold bind. rewrite Hrun.
    destruct recent as [|r rs].
    + exists 0%Q, w1.
      split; [reflexivity|]. split; [split; discriminate|].
      split; [reflexivity|congruence].
    + eexists; eexists. split; [reflexivity|].
      split; [|split; [discriminate|reflexivity]].
      apply percentage_bounds; [apply count_le | cbn; lia].
Qed.

Lemma uptime_percentage_total self hours w :
  match fst (get_uptime_percentage env self hours w) with
  | Ok v => (0 <= v <= 100)%Q
  | Raise e =>
      e = OverflowError
      /\ exists k, (k < length (history self))%nat
                   /\ cutoff (datetime_now env (now_reads w + k)) hours
                      = Raise OverflowError
  end.
Proof.
  pose proof (recent_checks_total hours (history self) w) as Hrec.
  destruct (filterM _ (history self) w) as [[recent|e] w1] eqn:Hrun;
    cbn [fst] in Hrec.
  - destruct (uptime_of_recent _ _ _ _ _ Hrun) as (v & w' & -> & Hv & _).
    exact Hv.
  - unfold get_uptime_percentage.
    destruct (history self) as [|h hs] eqn:Hh; [discriminate Hrun|].
    unfold bind. rewrite Hrun. exact Hrec.
Qed.

Lemma cutoff_24_ok t :
  datetime_in_range (t - 24 * US_PER_HOUR) = true ->
  cutoff t 24 = Ok (t - 24 * US_PER_HOUR).
Proof.
  intros Hr. unfold cutoff.
  change (timedelta_hours 24) with (@Ok Z (24 * US_PER_HOUR)).
  unfold datetime_sub. now rewrite Hr.
Qed.

Lemma uptime_24_ok :
  clock_ok env ->
  forall self w, exists v w', get_uptime_percentage env self 24 w = (Ok v, w').
Proof.
  intros Hclock self w.
  pose proof (uptime_percentage_total self 24 w) as Htot.
  destruct (get_uptime_percentage env self 24 w) as [[v|e] w'];
    cbn [fst] in Htot; [eauto|].
  destruct Htot as (_ & k & _ & Hraise).
  rewrite cutoff_24_ok in Hraise by apply Hclock. discriminate.
Qed.

(** *** The report *)

Lemma report_checker_counts acc c w acc' w' :
  report_checker env acc c w = (Ok acc', w') ->
  up (fst acc') = (up (fst acc) + bump UP c)%nat
  /\ degraded (fst acc') = (degraded (fst acc) + bump DEGRADED c)%nat
  /\ down (fst acc') = (down (fst acc) + bump DOWN c)%nat.
Proof.
  unfold report_checker, bump, latest_is, latest_health.
  destruct (last_opt (history c)) as [latest|]; cbn [option_map].
  - unfold bind at 1.
    destruct (get_uptime_percentage env c 24 w) as [[v|e] w1]; [|discriminate].
    unfold bind at 1.
    destruct (get_uptime_percentage env c 24 w1) as [[v'|e] w2]; [|discriminate].
    unfold ret. intros [= <- <-]. cbn [fst].
    destruct (health latest); cbn; repeat split; lia.
  - unfold ret. intros [= <- <-]. repeat split; lia.
Qed.

Lemma report_fold_counts cs : forall acc w acc' w',
  foldM (report_checker env) acc cs w = (Ok acc', w') ->
  up (fst acc') = (up (fst acc) + count (latest_is UP) cs)%nat
  /\ degraded (fst acc')
     = (degraded (fst acc) + count (latest_is DEGRADED) cs)%nat
  /\ down (fst acc') = (down (fst acc) + count (latest_is DOWN) cs)%nat.
Proof.
  induction cs as [|c cs IH]; intros acc w acc' w'; cbn [foldM].
  - unfold ret. intros [= <- <-]. cbn. repeat split; lia.
  - unfold bind at 1.
    destruct (report_checker env acc c w) as [[acc1|e] w1] eqn:H1;
      [|discriminate].
    intros Hrest. apply IH in Hrest.
    apply report_checker_counts in H1.
    unfold bump in H1. unfold count in *. cbn [filter].
    destruct (latest_is UP c), (latest_is DEGRADED c), (latest_is DOWN c);
      cbn [length]; repeat split; lia.
Qed.

Lemma report_fold_ok :
  clock_ok env ->
  forall cs acc w, exists acc' w',
    foldM (report_checker env) acc cs w = (Ok acc', w').
Proof.
  intros Hclock. induction cs as [|c cs IH]; intros acc w; cbn [foldM].
  - eexists; eexists; reflexivity.
  - unfold bind at 1. unfold report_checker.
    destruct (last_opt (history c)) as [latest|].
    + unfold bind at 1.
      destruct (uptime_24_ok Hclock c w) as (v & w1 & ->).
      unfold bind at 1.
      destruct (uptime_24_ok Hclock c w1) as (v' & w2 & ->).
      unfold ret at 1. apply IH.
    + unfold ret at 1. apply IH.
Qed.

Lemma generate_report_counts cs w report w' :
  generate_report env cs w = (Ok report, w') ->
  up (summary report) = count (latest_is UP) cs
  /\ degraded (summary report) = count (latest_is DEGRADED) cs
  /\ down (summary report) = count (latest_is DOWN) cs.
Proof.
  unfold generate_report. unfold bind at 1, now at 1. unfold bind at 1, now at 1.
  unfold bind at 1.
  match goal with
  | |- context [foldM (report_checker env) ?a cs ?w0] =>
      destruct (foldM (report_checker env) a cs w0) as [[acc|e] w1] eqn:Hfold
  end; [|discriminate].
  apply report_fold_counts in Hfold. cbn [fst up degraded down] in Hfold.
  match goal with
  | |- context [write_report env ?r] => destruct (write_report env r)
  end; run; intros [= <- <-]; cbn [summary]; exact Hfold.
Qed.

Lemma generate_report_ok :
  clock_ok env ->
  forall cs w, exists report w', generate_report env cs w = (Ok report, w').
Proof.
  intros Hclock cs w.
  unfold generate_report. unfold bind at 1, now at 1. unfold bind at 1, now at 1.
  unfold bind at 1.
  match goal with
  | |- context [foldM (report_checker env) ?a cs ?w0] =>
      destruct (report_fold_ok Hclock cs a w0) as (acc & w1 & ->)
  end.
  match goal with
  | |- context [write_report env ?r] => destruct (write_report env r)
  end; run; eexists; eexists; reflexivity.
Qed.

(** The report does not depend on what happens to the report file. *)
Lemma generate_report_write_independent f cs w :
  fst (generate_report (with_write_report env f) cs w)
  = fst (generate_report env cs w).
Proof.
  unfold generate_report.
  change (report_checker (with_write_report env f)) with (report_checker env).
  run. cbn [datetime_now write_report with_write_report].
  match goal with
  | |- context [foldM (report_checker env) ?a cs ?w0] =>
      destruct (foldM (report_checker env) a cs w0) as [[acc|e] w1]
  end; [|reflexivity].
  match goal with
  | |- context [write_report env ?r] =>
      destruct (f r); destruct (write_report env r)
  end; reflexivity.
Qed.

(** *** The run *)

Lemma last_opt_app {A} (l : list A) (x : A) : last_opt (l ++ [x]) = Some x.
Proof.
  induction l as [|y l IH]; [reflexivity|].
  cbn [app last_opt]. rewrite IH. now destruct (l ++ [x]).
Qed.

Lemma latest_is_append v c r :
  latest_is v (append_history c r) = Health_eqb (health r) v.
Proof.
  unfold latest_is, latest_health, append_history. cbn [history].
  now rewrite last_opt_app.
Qed.

Lemma check_all_cons c cs w :
  check_all env (c :: cs) w
  = match check_health env c w with
    | (Ok r, w1) =>
        match check_all env cs w1 with
        | (Ok cs', w2) => (Ok (snd r :: cs'), w2)
        | (Raise e, w2) => (Raise e, w2)
        end
    | (Raise e, w1) => (Raise e, w1)
    end.
Proof.
  unfold check_all. cbn [mapM]. run.
  destruct (check_health env c w) as [[r|e] w1]; reflexivity.
Qed.

(** What [check_all] does, by the outcomes of its requests. *)
Lemma check_all_run cs : forall w,
  match check_all env cs w with
  | (Ok cs', w') =>
      Forall (fun o => unexpected o = false) (outcomes env (requests_made w) cs)
      /\ count (latest_is DOWN) cs'
         = count failed (outcomes env (requests_made w) cs)
      /\ Forall2 (fun c c' => exists r, c' = append_history c r) cs cs'
  | (Raise e, w') =>
      Exists (fun o => unexpected o = true) (outcomes env (requests_made w) cs)
  end.
Proof.
  induction cs as [|c cs IH]; intros w.
  - cbn. repeat split; constructor.
  - rewrite check_all_cons. cbn [outcomes].
    fold (request_of env c w).
    destruct (outcome_cases (request_of env c w)) as [Ho|[Ho|Ho]].
    + destruct (request_of env c w) as [code hdrs| | | |] eqn:Hreq;
        try discriminate Ho.
      destruct (check_health_responded c w code hdrs Hreq)
        as (r & w1 & -> & Hh & _ & _ & Hreqs & _).
      specialize (IH w1). rewrite Hreqs in IH.
      destruct (check_all env cs w1) as [[cs'|e] w2].
      * destruct IH as (Hall & Hcount & Hhist). cbn [snd].
        split; [constructor; [reflexivity|exact Hall]|].
        split; [|constructor; [eauto|exact Hhist]].
        unfold count in *. cbn [filter failed].
        rewrite latest_is_append, Hh.
        destruct (code =? expected_status c); exact Hcount.
      * now apply Exists_cons_tl.
    + destruct (check_health_failed c w Ho)
        as (r & w1 & -> & Hh & _ & _ & _ & Hreqs & _).
      specialize (IH w1). rewrite Hreqs in IH.
      destruct (check_all env cs w1) as [[cs'|e] w2].
      * destruct IH as (Hall & Hcount & Hhist). cbn [snd].
        split; [constructor; [now destruct (request_of env c w)|exact Hall]|].
        split; [|constructor; [eauto|exact Hhist]].
        unfold count in *. cbn [filter]. rewrite Ho.
        rewrite latest_is_append, Hh. cbn. now rewrite Hcount.
      * now apply Exists_cons_tl.
    + destruct (request_of env c w) as [| | | |e] eqn:Hreq;
        try discriminate Ho.
      destruct (check_health_unexpected c w e Hreq) as (w1 & -> & _).
      now apply Exists_cons_hd.
Qed.

Lemma exit_code_body apps w :
  exit_code env apps w
  = match fst (main_body env apps (started w)) with
    | Ok code => code
    | Raise _ => 2
    end.
Proof.
  unfold exit_code, main_on, started. run.
  destruct (main_body env apps _) as [[code|e] w1]; reflexivity.
Qed.

Lemma main_body_run apps w :
  fst (main_body env apps w)
  = match check_all env (map init apps) w with
    | (Ok cs', w1) =>
        match generate_report env cs' w1 with
        | (Ok report, _) =>
            Ok (if (0 <? down (summary report))%nat then 1 else 0)
        | (Raise e, _) => Raise e
        end
    | (Raise e, _) => Raise e
    end.
Proof.
  unfold main_body. run.
  destruct (check_all env (map init apps) _) as [[cs'|e] w1]; [|reflexivity].
  destruct (generate_report env cs' w1) as [[report|e] w2]; [|reflexivity].
  destruct (0 <? down (summary report))%nat; [reflexivity|].
  destruct (0 <? degraded (summary report))%nat; reflexivity.
Qed.

Lemma count_pos {A} (p : A -> bool) (l : list A) :
  (0 <? count p l)%nat = existsb p l.
Proof.
  unfold count. induction l as [|x l IH]; [reflexivity|].
  cbn [filter existsb]. destruct (p x); [reflexivity|exact IH].
Qed.

Lemma latest_is_spec v c : latest_is v c = true <-> latest_health c = Some v.
Proof.
  unfold latest_is. destruct (latest_health c) as [v'|].
  - destruct v, v'; cbn; split; congruence.
  - split; discriminate.
Qed.

(** The exit code, by the latest results of the checkers. *)
Lemma exit_code_by_results apps w :
  (forall cs' w1 report w2,
     check_all env (map init apps) (started w) = (Ok cs', w1) ->
     generate_report env cs' w1 = (Ok report, w2) ->
     (Exists (fun c => latest_health c = Some DOWN) cs' ->
      exit_code env apps w = 1)
     /\ (Forall (fun c => latest_health c = Some UP
                          \/ latest_health c = Some DEGRADED) cs' ->
         exit_code env apps w = 0))
  /\ (forall e w',
        main_body env apps (started w) = (Raise e, w') ->
        exit_code env apps w = 2)
  /\ (Exists (fun o => unexpected o = true)
        (outcomes env (requests_made w) (map init apps)) ->
      exit_code env apps w = 2).
Proof.
  split; [|split].
  - intros cs' w1 report w2 Hchecks Hreport.
    rewrite exit_code_body, main_body_run, Hchecks, Hreport.
    apply generate_report_counts in Hreport. destruct Hreport as (_ & _ & ->).
    rewrite count_pos. split.
    + intros Hdown. apply Exists_exists in Hdown. destruct Hdown as (c & Hin & Hc).
      assert (Hex : existsb (latest_is DOWN) cs' = true).
      { apply existsb_exists. exists c. split; [exact Hin|].
        now apply latest_is_spec. }
      now rewrite Hex.
    + intros Hall.
      destruct (existsb (latest_is DOWN) cs') eqn:Hex; [|reflexivity].
      apply existsb_exists in Hex. destruct Hex as (c & Hin & Hc).
      apply latest_is_spec in Hc. rewrite Forall_forall in Hall.
      destruct (Hall c Hin); congruence.
  - intros e w' Hraise. now rewrite exit_code_body, Hraise.
  - intros Hunexp. rewrite exit_code_body, main_body_run.
    pose proof (check_all_run (map init apps) (started w)) as Hrun.
    destruct (check_all env (map init apps) (started w)) as [[cs'|e] w1];
      [|reflexivity].
    destruct Hrun as (Hall & _). change (requests_made (started w))
      with (requests_made w) in Hall.
    apply Exists_exists in Hunexp. destruct Hunexp as (o & Hin & Ho).
    rewrite Forall_forall in Hall. apply Hall in Hin. congruence.
Qed.

(** The exit code, by the outcomes of the requests. *)
Lemma exit_code_by_outcomes apps w :
  clock_ok env ->
  Forall (fun o => unexpected o = false)
    (outcomes env (requests_made w) (map init apps)) ->
  exit_code env apps w
  = if existsb failed (outcomes env (requests_made w) (map init apps))
    then 1 else 0.
Proof.
  intros Hclock Hrec. rewrite exit_code_body, main_body_run.
  pose proof (check_all_run (map init apps) (started w)) as Hrun.
  change (requests_made (started w)) with (requests_made w) in Hrun.
  destruct (check_all env (map init apps) (started w)) as [[cs'|e] w1].
  - destruct Hrun as (_ & Hcount & _).
    destruct (generate_report_ok Hclock cs' w1) as (report & w2 & Hreport).
    rewrite Hreport. apply generate_report_counts in Hreport.
    destruct Hreport as (_ & _ & ->). now rewrite Hcount, count_pos.
  - apply Exists_exists in Hrun. destruct Hrun as (o & Hin & Ho).
    rewrite Forall_forall in Hrec. apply Hrec in Hin. congruence.
Qed.

End Checks.

Lemma main_body_write_independent env f apps w :
  fst (main_body (with_write_report env f) apps w)
  = fst (main_body env apps w).
Proof.
  rewrite !main_body_run.
  change (check_all (with_write_report env f)) with (check_all env).
  destruct (check_all env (map init apps) w) as [[cs'|e] w1]; [|reflexivity].
  pose proof (generate_report_write_independent env f cs' w1) as Hsame.
  destruct (generate_report (with_write_report env f) cs' w1) as [[r1|e1] w2],
           (generate_report env cs' w1) as [[r2|e2] w3];
    cbn [fst] in Hsame; cbv beta iota; try discriminate Hsame.
  - injection Hsame as ->. reflexivity.
  - injection Hsame as ->. reflexivity.
Qed.

(** *** check_health *)

(** C1.  When the request of [check_health] receives a response, the result
    has verdict UP exactly when the status code equals [expected_status], it
    has verdict DEGRADED for every other code, and it never has verdict
    DOWN. *)
Theorem check_health_verdict_on_response env self w code hdrs :
  request_of env self w = Responded code hdrs ->
  exists r w',
    check_health env self w = (Ok (r, append_history self r), w')
    /\ status_code r = Some code
    /\ (health r = UP <-> code = expected_status self)
    /\ (code <> expected_status self -> health r = DEGRADED)
    /\ health r <> DOWN.
Proof.
  intros Hreq.
  destruct (check_health_responded env self w code hdrs Hreq)
    as (r & w' & Hrun & Hh & Hcode & _).
  exists r, w'. split; [exact Hrun|]. split; [exact Hcode|].
  rewrite Hh. destruct (Z.eqb_spec code (expected_status self)) as [Heq|Hne].
  - repeat split; try congruence; discriminate.
  - repeat split; try congruence; discriminate.
Qed.

Lemma check_health_verdict_on_response_witness :
  request_of (env_answering (Responded 503 [])) (init wisecow) initial_world
  = Responded 503 []
  /\ exists r w',
       check_health (env_answering (Responded 503 [])) (init wisecow)
         initial_world
       = (Ok (r, append_history (init wisecow) r), w')
       /\ status_code r = Some 503
       /\ (health r = UP <-> 503 = expected_status (init wisecow))
       /\ (503 <> expected_status (init wisecow) -> health r = DEGRADED)
       /\ health r <> DOWN.
Proof.
  split; [reflexivity|].
  apply (check_health_verdict_on_response
           (env_answering (Responded 503 [])) (init wisecow) initial_world
           503 []).
  reflexivity.
Defined.

(** C6.  When the request times out, [check_health] returns (the exception
    does not propagate) a result with verdict DOWN, a message that states the
    configured timeout, no latency, no status code and the error TIMEOUT; the
    event is logged as an error. *)
Theorem check_health_on_timeout env self w :
  request_of env self w = RaisedTimeout ->
  exists r w',
    check_health env self w = (Ok (r, append_history self r), w')
    /\ health r = DOWN
    /\ message r
       = ("Request timeout after " ++ str_int (timeout self) ++ " seconds")%string
    /\ response_time_ms r = None
    /\ status_code r = None
    /\ error r = Some "TIMEOUT"%string
    /\ log w' = log w ++ [(ERROR, EvDownTimeout (name self) (timeout self))].
Proof.
  unfold request_of. intros Hreq.
  unfold check_health. run. cbn [requests_made now_reads time_reads].
  rewrite Hreq. eexists; eexists. split; [reflexivity|].
  cbn. repeat split.
Qed.

Lemma check_health_on_timeout_witness :
  request_of (env_answering RaisedTimeout) (init wisecow) initial_world
  = RaisedTimeout
  /\ exists r w',
       check_health (env_answering RaisedTimeout) (init wisecow) initial_world
       = (Ok (r, append_history (init wisecow) r), w')
       /\ health r = DOWN
       /\ message r = "Request timeout after 5 seconds"%string
       /\ response_time_ms r = None
       /\ status_code r = None
       /\ error r = Some "TIMEOUT"%string
       /\ log w' = [(ERROR, EvDownTimeout "Wisecow App" 5)].
Proof.
  split; [reflexivity|].
  apply (check_health_on_timeout
           (env_answering RaisedTimeout) (init wisecow) initial_world).
  reflexivity.
Defined.

(** C7.  A call of [check_health] whose request is answered or fails with a
    timeout, a connection error or another request exception appends exactly
    one result, the one it returns, at the end of the history: the length
    grows by one and the entries that were there stay as they were, in their
    places; and in the loop over all checkers every history gains exactly one
    result. *)
Theorem check_health_appends_one env self w :
  unexpected (request_of env self w) = false ->
  (exists r self' w',
     check_health env self w = (Ok (r, self'), w')
     /\ history self' = history self ++ [r]
     /\ length (history self') = S (length (history self))
     /\ (forall i, (i < length (history self))%nat ->
                   nth_error (history self') i = nth_error (history self) i)
     /\ nth_error (history self') (length (history self)) = Some r)
  /\ (forall cs w0 cs' w1,
        check_all env cs w0 = (Ok cs', w1) ->
        Forall2 (fun c c' => exists r, history c' = history c ++ [r]) cs cs').
Proof.
  intros Hrec. split.
  - assert (Hgrow : forall r self', self' = append_history self r ->
               history self' = history self ++ [r]
               /\ length (history self') = S (length (history self))
               /\ (forall i, (i < length (history self))%nat ->
                      nth_error (history self') i = nth_error (history self) i)
               /\ nth_error (history self') (length (history self)) = Some r).
    { intros r self' ->. cbn [append_history history].
      split; [reflexivity|].
      split; [rewrite length_app; cbn; lia|].
      split; [intros i Hi; now apply nth_error_app1|].
      rewrite nth_error_app2, Nat.sub_diag by lia. reflexivity. }
    destruct (outcome_cases (request_of env self w)) as [Ho|[Ho|Ho]].
    + destruct (request_of env self w) as [code hdrs| | | |] eqn:Hreq;
        try discriminate Ho.
      destruct (check_health_responded env self w code hdrs Hreq)
        as (r & w' & Hrun & _).
      exists r, (append_history self r), w'.
      split; [exact Hrun|now apply Hgrow].
    + destruct (check_health_failed env self w Ho) as (r & w' & Hrun & _).
      exists r, (append_history self r), w'.
      split; [exact Hrun|now apply Hgrow].
    + congruence.
  - intros cs w0 cs' w1 Hrun.
    pose proof (check_all_run env cs w0) as Hall. rewrite Hrun in Hall.
    destruct Hall as (_ & _ & Hhist).
    clear Hrun.
    induction Hhist as [|c c' cs0 cs0' (r & ->) _ IH]; constructor;
      [exists r; reflexivity | exact IH].
Qed.

Lemma check_health_appends_one_witness :
  unexpected
    (request_of (env_answering (RaisedConnectionError "refused"))
       checker_with_four initial_world) = false
  /\ exists r self' w',
       check_health (env_answering (RaisedConnectionError "refused"))
         checker_with_four initial_world = (Ok (r, self'), w')
       /\ history self' = history checker_with_four ++ [r]
       /\ length (history self') = 5%nat.
Proof.
  split; [reflexivity|].
  destruct (check_health_appends_one
              (env_answering (RaisedConnectionError "refused"))
              checker_with_four initial_world eq_refl)
    as ((r & self' & w' & Hrun & Hhist & Hlen & _) & _).
  exists r, self', w'. split; [exact Hrun|]. split; [exact Hhist|exact Hlen].
Defined.

(** *** get_uptime_percentage *)









(** C10.  For every history, every window and every clock,
    [get_uptime_percentage] returns a value between 0 and 100, unless the
    cutoff of one of its readings of the clock is not a datetime, in which
    case it raises [OverflowError]. *)
Theorem uptime_percentage_bounds env self hours w :
  (exists v w',
     get_uptime_percentage env self hours w = (Ok v, w')
     /\ (0 <= v <= 100)%Q)
  \/ (exists w' k,
        get_uptime_percentage env self hours w = (Raise OverflowError, w')
        /\ (k < length (history self))%nat
        /\ cutoff (datetime_now env (now_reads w + k)) hours
           = Raise OverflowError).
Proof.
  pose proof (uptime_percentage_total env self hours w) as Htot.
  destruct (get_uptime_percentage env self hours w) as [[v|e] w'];
    cbn [fst] in Htot.
  - left. exists v, w'. split; [reflexivity|exact Htot].
  - right. destruct Htot as (-> & k & Hk & Hraise).
    exists w', k. split; [reflexivity|]. split; assumption.
Qed.

(** *** generate_report *)

(** C9.  When the report file cannot be written, and the clock leaves room
    for the 24 hours of the uptime, [generate_report] returns: the report is
    the one it returns when the file is written, the log is the same up to
    its last line, which is the error that reports the failure where the
    other run has the line that reports the save, and the exit code of the
    run is the one of the run whose file is written. *)
Theorem report_write_failure_is_harmless env cs apps w :
  clock_ok env ->
  (forall r, write_report env r <> Written) ->
  let env_ok := with_write_report env (fun _ => Written) in
  exists report w' w_ok l text,
    generate_report env cs w = (Ok report, w')
    /\ generate_report env_ok cs w = (Ok report, w_ok)
    /\ log w' = l ++ [(ERROR, EvReportFailed text)]
    /\ log w_ok = l ++ [(INFO, EvReportSaved)]
    /\ (write_report env report = OpenFailed text
        \/ write_report env report = DumpFailed text)
    /\ exit_code env apps w = exit_code env_ok apps w.
Proof.
  intros Hclock Hfail env_ok.
  assert (Hexit : exit_code env apps w = exit_code env_ok apps w).
  { rewrite !exit_code_body. unfold env_ok.
    change (started w) with (snd (logger INFO EvStarting w)).
    now rewrite main_body_write_independent. }
  unfold env_ok, generate_report.
  change (report_checker (with_write_report env (fun _ => Written)))
    with (report_checker env).
  run. cbn [datetime_now write_report with_write_report].
  match goal with
  | |- context [foldM (report_checker env) ?a cs ?w0] =>
      destruct (report_fold_ok env Hclock cs a w0) as ([s entries] & w1 & ->)
  end.
  cbv beta iota.
  match goal with
  | |- context [write_report env ?r] =>
      pose proof (Hfail r) as Hr; destruct (write_report env r) as [|t|t] eqn:Hw
  end; [congruence| |];
    eexists; eexists; eexists; exists (log w1), t;
    (split; [reflexivity|]); (split; [reflexivity|]);
    (split; [reflexivity|]); (split; [reflexivity|]); auto.
Qed.

Lemma report_write_failure_is_harmless_witness :
  clock_ok (env_still_read_only (Responded 503 []))
  /\ (forall r, write_report (env_still_read_only (Responded 503 [])) r
                <> Written)
  /\ exists report w',
       generate_report (env_still_read_only (Responded 503 []))
         [checker_with_four] initial_world = (Ok report, w')
       /\ log w' = [(ERROR, EvReportFailed "Permission denied")]
       /\ length (applications report) = 1%nat
       /\ exit_code (env_still_read_only (Responded 503 [])) APPLICATIONS
            initial_world
          = exit_code
              (with_write_report (env_still_read_only (Responded 503 []))
                 (fun _ => Written))
              APPLICATIONS initial_world.
Proof.
  assert (Hclock : clock_ok (env_still_read_only (Responded 503 []))).
  { intros k. reflexivity. }
  assert (Hfail : forall r,
             write_report (env_still_read_only (Responded 503 [])) r
             <> Written) by discriminate.
  split; [exact Hclock|]. split; [exact Hfail|].
  destruct (report_write_failure_is_harmless
              (env_still_read_only (Responded 503 [])) [checker_with_four]
              APPLICATIONS initial_world Hclock Hfail)
    as (report & w' & w_ok & l & text & Hrun & _ & _ & _ & _ & Hexit).
  exists report, w'. split; [exact Hrun|].
  cbv in Hrun. injection Hrun as <- <-.
  split; [reflexivity|]. split; [reflexivity|exact Hexit].
Defined.

End AppFacts.

(** * Properties of system_health_monitor.py *)

Module SysFacts.

Import Sys.
Local Open Scope Z_scope.

(** The scan accepts the f-strings of lines 52 and 57. *)
Example other_fstrings_are_accepted :
  stray_backslash Text per_core_fstring = false
  /\ stray_backslash Text cpu_alert_fstring = false.
Proof. split; reflexivity. Qed.

(** The scan stops in the replacement field of line 132, on the backslash
    that follows the [f] of the inner f-string. *)
Lemma line_132_is_refused : stray_backslash Text details_fstring = true.
Proof. reflexivity. Qed.

Lemma run_script_refused statements env w :
  run_script statements env w = (1, w).
Proof. unfold run_script. now rewrite line_132_is_refused. Qed.


(** C4.  The script ends with status 1 on every machine: also on a quiet
    machine, where no metric is CRITICAL, and on a machine where psutil
    fails. *)
Theorem script_exit_status_is_one statements env w :
  fst (run_script statements env w) = 1
  /\ fst (run_script statements env_quiet initial_world) = 1.
Proof. rewrite !run_script_refused. split; reflexivity. Qed.


End SysFacts.

(** * The exit code of the HTTP script *)

Section ExitCodes.

Local Open Scope Z_scope.

Lemma main_body_codes env apps w code w' :
  App.main_body env apps w = (Ok code, w') -> code = 0 \/ code = 1.
Proof.
  intros Hrun. pose proof (AppFacts.main_body_run env apps w) as Hfst.
  rewrite Hrun in Hfst. cbn [fst] in Hfst.
  destruct (App.check_all env (map App.init apps) w) as [[cs'|e] w1];
    [|discriminate].
  destruct (App.generate_report env cs' w1) as [[report|e] w2];
    [|discriminate].
  injection Hfst as ->.
  destruct (0 <? App.down (App.summary report))%nat; auto.
Qed.

(** After the loop over the checkers, the latest result of each is DOWN or
    it is UP or DEGRADED. *)
Lemma latest_after_checks env cs w cs' w' :
  App.check_all env cs w = (Ok cs', w') ->
  Forall (fun c => App.latest_health c = Some App.DOWN
                   \/ App.latest_health c = Some App.UP
                   \/ App.latest_health c = Some App.DEGRADED) cs'.
Proof.
  intros Hrun. pose proof (AppFacts.check_all_run env cs w) as Hall.
  rewrite Hrun in Hall. destruct Hall as (_ & _ & Hhist). clear Hrun.
  induction Hhist as [|c c' cs0 cs0' (r & ->) _ IH]; constructor;
    [|exact IH].
  unfold App.latest_health, App.append_history. cbn [App.history].
  rewrite AppFacts.last_opt_app. cbn [option_map].
  destruct (App.health r); auto.
Qed.

(** C5, as the specification words it, fails: the only target of the run
    answers 503 where 200 is expected, its result is DEGRADED, and the exit
    code is 0, not 1. *)
Lemma degraded_run_exits_zero :
  (exists cs' w',
     App.check_all (App.env_answering (App.Responded 503 []))
       (map App.init [App.wisecow]) (App.started App.initial_world)
     = (Ok cs', w')
     /\ map App.latest_health cs' = [Some App.DEGRADED])
  /\ App.exit_code (App.env_answering (App.Responded 503 [])) [App.wisecow]
       App.initial_world <> 1.
Proof.
  split.
  - eexists; eexists. split; reflexivity.
  - vm_compute. discriminate.
Qed.

(** C5, amended.  The exit code of the HTTP script is 2 exactly when an
    exception is raised inside the [try] block of [main]; otherwise the
    checks and the report go through, and then it is 1 exactly when the
    latest result of some target is DOWN and 0 exactly when the latest result
    of every target is UP or DEGRADED; so a run whose targets are all
    DEGRADED exits with 0. *)
Theorem exit_codes_by_findings env apps w :
  (App.exit_code env apps w = 2
   <-> exists e w', App.main_body env apps (App.started w) = (Raise e, w'))
  /\ (forall cs' w1 report w2,
        App.check_all env (map App.init apps) (App.started w) = (Ok cs', w1) ->
        App.generate_report env cs' w1 = (Ok report, w2) ->
        (App.exit_code env apps w = 1
         <-> Exists (fun c => App.latest_health c = Some App.DOWN) cs')
        /\ (App.exit_code env apps w = 0
            <-> Forall (fun c => App.latest_health c = Some App.UP
                                 \/ App.latest_health c = Some App.DEGRADED)
                  cs')
        /\ (Forall (fun c => App.latest_health c = Some App.DEGRADED) cs' ->
            App.exit_code env apps w = 0))
  /\ ((exists e w', App.main_body env apps (App.started w) = (Raise e, w'))
      \/ exists cs' w1 report w2,
           App.check_all env (map App.init apps) (App.started w) = (Ok cs', w1)
           /\ App.generate_report env cs' w1 = (Ok report, w2)).
Proof.
  split; [|split].
  - rewrite AppFacts.exit_code_body.
    destruct (App.main_body env apps (App.started w)) as [[code|e] w'] eqn:Hrun;
      cbn [fst].
    + split.
      * intros ->. destruct (main_body_codes _ _ _ _ _ Hrun); discriminate.
      * intros (e & w0 & H). discriminate H.
    + split; [eauto|reflexivity].
  - intros cs' w1 report w2 Hchecks Hreport.
    destruct (AppFacts.exit_code_by_results env apps w) as (Hres & _ & _).
    destruct (Hres cs' w1 report w2 Hchecks Hreport) as (Hdown & Hfine).
    pose proof (latest_after_checks _ _ _ _ _ Hchecks) as Hlatest.
    assert (Hcases :
              Exists (fun c => App.latest_health c = Some App.DOWN) cs'
              \/ Forall (fun c => App.latest_health c = Some App.UP
                                  \/ App.latest_health c = Some App.DEGRADED)
                   cs').
    { clear - Hlatest. induction Hlatest as [|c cs0 Hc _ IH]; [right; constructor|].
      destruct Hc as [Hc|Hc]; [left; now constructor|].
      destruct IH as [IH|IH]; [left; now apply Exists_cons_tl|].
      right. now constructor. }
    split; [|split].
    + split; [|exact Hdown]. intros Hone.
      destruct Hcases as [Hex|Hall]; [exact Hex|].
      rewrite (Hfine Hall) in Hone. discriminate.
    + split; [|exact Hfine]. intros Hzero.
      destruct Hcases as [Hex|Hall]; [|exact Hall].
      rewrite (Hdown Hex) in Hzero. discriminate.
    + intros Hdeg. apply Hfine.
      eapply Forall_impl; [|exact Hdeg]. intros c Hc. now right.
  - pose proof (AppFacts.main_body_run env apps (App.started w)) as Hfst.
    destruct (App.check_all env (map App.init apps) (App.started w))
      as [[cs'|e] w1].
    + destruct (App.generate_report env cs' w1) as [[report|e] w2] eqn:Hreport.
      * right. exists cs', w1, report, w2. split; [reflexivity|exact Hreport].
      * left. destruct (App.main_body env apps (App.started w)) as [r w'].
        cbn [fst] in Hfst. subst r. eauto.
    + left. destruct (App.main_body env apps (App.started w)) as [r w'].
      cbn [fst] in Hfst. subst r. eauto.
Qed.

Lemma exit_codes_by_findings_witness :
  (exists cs' w1 report w2,
     App.check_all (App.env_still (App.Responded 503 []))
       (map App.init App.APPLICATIONS) (App.started App.initial_world)
     = (Ok cs', w1)
     /\ App.generate_report (App.env_still (App.Responded 503 [])) cs' w1
        = (Ok report, w2)
     /\ Forall (fun c => App.latest_health c = Some App.DEGRADED) cs')
  /\ App.exit_code (App.env_still (App.Responded 503 [])) App.APPLICATIONS
       App.initial_world = 0
  /\ App.exit_code (App.env_still (App.RaisedUnexpected TypeError))
       App.APPLICATIONS App.initial_world = 2.
Proof.
  destruct (App.check_all (App.env_still (App.Responded 503 []))
              (map App.init App.APPLICATIONS) (App.started App.initial_world))
    as [[cs'|e] w1] eqn:Hchecks; [|cbv in Hchecks; discriminate Hchecks].
  destruct (App.generate_report (App.env_still (App.Responded 503 [])) cs' w1)
    as [[report|e] w2] eqn:Hreport;
    [|exfalso; cbv in Hchecks; injection Hchecks as <- <-;
      cbv in Hreport; discriminate Hreport].
  assert (Hdeg : Forall (fun c => App.latest_health c = Some App.DEGRADED) cs').
  { cbv in Hchecks. injection Hchecks as <- <-. repeat constructor. }
  split; [|split].
  - exists cs', w1, report, w2.
    split; [reflexivity|]. split; [exact Hreport|exact Hdeg].
  - destruct (exit_codes_by_findings (App.env_still (App.Responded 503 []))
                App.APPLICATIONS App.initial_world) as (_ & Hres & _).
    destruct (Hres cs' w1 report w2 Hchecks Hreport) as (_ & _ & Hzero).
    exact (Hzero Hdeg).
  - destruct (exit_codes_by_findings
                (App.env_still (App.RaisedUnexpected TypeError))
                App.APPLICATIONS App.initial_world) as (Htwo & _ & _).
    apply Htwo. eexists; eexists. cbv. reflexivity.
Defined.

End ExitCodes.

(** * Further properties of app_health_checker.py *)

Module AppMore.

Import App.
Local Open Scope Z_scope.

Ltac run :=
  cbv beta iota delta
    [bind ret raise lift try_except modify logger set_report_file
     now time get_request fst snd].

(** *** _get_status_message *)

Lemma dict_get_unlisted {V} (d : list (Z * V)) (k : Z) (default : V) :
  ~ In k (map fst d) -> dict_get d k default = default.
Proof.
  induction d as [|[k' v] d IH]; intros Hk; [reflexivity|].
  cbn [dict_get]. destruct (Z.eqb_spec k' k) as [->|Hne].
  - exfalso. apply Hk. now left.
  - apply IH. intros Hin. apply Hk. now right.
Qed.

(** X1.  [_get_status_message] answers with the generic text, HTTP followed
    by the code, exactly for the codes that its table does not list. *)
Theorem status_message_generic_iff_unlisted code :
  _get_status_message code = ("HTTP " ++ str_int code)%string
  <-> ~ In code listed_codes.
Proof.
  split.
  - intros Hmsg Hin. unfold listed_codes in Hin. cbn in Hin.
    repeat (destruct Hin as [<-|Hin]; [vm_compute in Hmsg; discriminate|]).
    exact Hin.
  - intros Hout. unfold _get_status_message. now apply dict_get_unlisted.
Qed.

Lemma status_message_generic_iff_unlisted_witness :
  ~ In 418 listed_codes /\ _get_status_message 418 = "HTTP 418"%string.
Proof.
  assert (Hout : ~ In 418 listed_codes).
  { cbn. intros H. repeat (destruct H as [H|H]; [discriminate H|]). exact H. }
  split; [exact Hout|].
  apply (proj2 (status_message_generic_iff_unlisted 418) Hout).
Defined.

(** *** check_health *)

(** X2.  When the connection fails, or the request fails in another way that
    requests reports, [check_health] returns a result with verdict DOWN, no
    status code, no latency, no headers, the text of the exception as its
    error and the message of that kind of failure; it logs one error line
    and leaves the result at the end of the history. *)
Theorem check_health_on_request_failure env self w :
  (forall text,
     request_of env self w = RaisedConnectionError text ->
     exists r w',
       check_health env self w = (Ok (r, append_history self r), w')
       /\ health r = DOWN /\ status_code r = None
       /\ response_time_ms r = None /\ headers r = None
       /\ error r = Some text
       /\ message r = "Connection failed - Application unreachable"%string
       /\ log w' = log w ++ [(ERROR, EvDownConnection (name self) text)])
  /\ (forall text,
        request_of env self w = RaisedRequestException text ->
        exists r w',
          check_health env self w = (Ok (r, append_history self r), w')
          /\ health r = DOWN /\ status_code r = None
          /\ response_time_ms r = None /\ headers r = None
          /\ error r = Some text
          /\ message r = "Request failed"%string
          /\ log w' = log w ++ [(ERROR, EvDownRequest (name self) text)]).
Proof.
  split; intros text; unfold request_of; intros Hreq;
    unfold check_health; run; cbn [requests_made now_reads time_reads];
    rewrite Hreq; eexists; eexists; (split; [reflexivity|]); cbn;
    repeat split.
Qed.

Lemma check_health_on_request_failure_witness :
  exists r w',
    check_health (env_answering (RaisedConnectionError "refused"))
      (init wisecow) initial_world
    = (Ok (r, append_history (init wisecow) r), w')
    /\ health r = DOWN /\ error r = Some "refused"%string
    /\ log w' = [(ERROR, EvDownConnection "Wisecow App" "refused")].
Proof.
  destruct (proj1 (check_health_on_request_failure
                     (env_answering (RaisedConnectionError "refused"))
                     (init wisecow) initial_world) "refused"%string eq_refl)
    as (r & w' & Hrun & Hh & _ & _ & _ & He & _ & Hlog).
  exists r, w'. split; [exact Hrun|]. split; [exact Hh|].
  split; [exact He|exact Hlog].
Defined.

(** X3.  [check_health] raises exactly when the request raises an exception
    outside the RequestException hierarchy, and it raises that exception;
    nothing is logged then, and the request has been made. *)
Theorem check_health_raises_iff env self w e :
  ((exists w', check_health env self w = (Raise e, w'))
   <-> request_of env self w = RaisedUnexpected e)
  /\ (forall w',
        check_health env self w = (Raise e, w') ->
        log w' = log w /\ requests_made w' = S (requests_made w)).
Proof.
  unfold request_of, check_health. run.
  cbn [requests_made now_reads time_reads].
  destruct (requests_get env (requests_made w) (url self) (timeout self))
    as [code hdrs| | | |e'].
  - destruct (code =? expected_status self); cbn [health Health_eqb];
      (split; [split; [intros (w' & H)|intros H]|intros w' H]; discriminate).
  - split; [split; [intros (w' & H)|intros H]|intros w' H]; discriminate.
  - split; [split; [intros (w' & H)|intros H]|intros w' H]; discriminate.
  - split; [split; [intros (w' & H)|intros H]|intros w' H]; discriminate.
  - split; [split|].
    + intros (w' & H). congruence.
    + intros [= ->]. eexists. reflexivity.
    + intros w' [= _ <-]. split; reflexivity.
Qed.

Lemma check_health_raises_iff_witness :
  request_of (env_breaking_at 0) (init wisecow) initial_world
  = RaisedUnexpected TypeError
  /\ exists w',
       check_health (env_breaking_at 0) (init wisecow) initial_world
       = (Raise TypeError, w').
Proof.
  split; [reflexivity|].
  apply (proj2 (proj1 (check_health_raises_iff (env_breaking_at 0)
                         (init wisecow) initial_world TypeError))).
  reflexivity.
Defined.

(** The result of a call that returns, field by field. *)
Lemma check_health_result env self w r self' w' :
  check_health env self w = (Ok (r, self'), w') ->
  self' = append_history self r
  /\ consistent r /\ describes_target self r
  /\ timestamp r = datetime_now env (now_reads w)
  /\ now_reads w' = S (now_reads w)
  /\ requests_made w' = S (requests_made w)
  /\ report_file w' = report_file w.
Proof.
  unfold check_health. run. cbn [requests_made now_reads time_reads].
  destruct (requests_get env (requests_made w) (url self) (timeout self))
    as [code hdrs| | | |e'].
  - destruct (Z.eqb_spec code (expected_status self)) as [Heq|Hne];
      cbn [health Health_eqb]; intros [= <- <- <-];
      (split; [reflexivity|]); unfold consistent, describes_target; cbn;
      repeat split; intros; try congruence; try discriminate.
  - intros [= <- <- <-]. split; [reflexivity|].
    unfold consistent, describes_target; cbn.
    repeat split; intros; try congruence; try discriminate.
  - intros [= <- <- <-]. split; [reflexivity|].
    unfold consistent, describes_target; cbn.
    repeat split; intros; try congruence; try discriminate.
  - intros [= <- <- <-]. split; [reflexivity|].
    unfold consistent, describes_target; cbn.
    repeat split; intros; try congruence; try discriminate.
  - discriminate.
Qed.

(** X4.  [check_health] keeps the history consistent: when every earlier
    result has optional fields that agree with its verdict and carries the
    name, url and expected status of the checker, so has every result after
    the call, the new one included; the configuration of the checker is not
    touched. *)
Theorem check_health_keeps_history_consistent env self w r self' w' :
  check_health env self w = (Ok (r, self'), w') ->
  Forall (fun h => consistent h /\ describes_target self h) (history self) ->
  Forall (fun h => consistent h /\ describes_target self' h) (history self')
  /\ same_target self self'.
Proof.
  intros Hrun Hold.
  destruct (check_health_result _ _ _ _ _ _ Hrun) as (-> & Hc & Hd & _).
  split; [|repeat split].
  cbn [append_history history]. apply Forall_app. split.
  - eapply Forall_impl; [|exact Hold]. intros h [Hch Hdh]. split; assumption.
  - constructor; [split; assumption|constructor].
Qed.

Lemma check_health_keeps_history_consistent_witness :
  exists r self' w',
    check_health (env_answering (Responded 503 [])) (init wisecow)
      initial_world = (Ok (r, self'), w')
    /\ Forall (fun h => consistent h /\ describes_target self' h)
         (history self')
    /\ same_target (init wisecow) self'.
Proof.
  destruct (check_health (env_answering (Responded 503 [])) (init wisecow)
              initial_world) as [[[r self']|e] w'] eqn:Hrun;
    [|cbv in Hrun; discriminate Hrun].
  exists r, self', w'. split; [reflexivity|].
  apply (check_health_keeps_history_consistent _ _ _ _ _ _ Hrun).
  constructor.
Defined.

(** X5.  The timestamp of the result of [check_health] is the reading of the
    clock made at the start of the call, so the timestamps of a history are
    earlier readings of the clock; with a clock that never goes back, no
    result of the history is later than any reading made afterwards. *)
Theorem check_health_timestamps_from_clock env self w r self' w' :
  check_health env self w = (Ok (r, self'), w') ->
  Forall (from_clock env (now_reads w)) (history self) ->
  timestamp r = datetime_now env (now_reads w)
  /\ Forall (from_clock env (now_reads w')) (history self')
  /\ (monotone_clock env ->
      forall k, (now_reads w' <= k)%nat ->
                Forall (fun h => timestamp h <= datetime_now env k)
                  (history self')).
Proof.
  intros Hrun Hold.
  destruct (check_health_result _ _ _ _ _ _ Hrun)
    as (-> & _ & _ & Hts & Hreads & _).
  assert (Hnew : Forall (from_clock env (now_reads w'))
                   (history (append_history self r))).
  { cbn [append_history history]. apply Forall_app. split.
    - eapply Forall_impl; [|exact Hold].
      intros h (k & Hk & Hh). exists k. split; [lia|exact Hh].
    - constructor; [|constructor]. exists (now_reads w). split; [lia|exact Hts]. }
  split; [exact Hts|]. split; [exact Hnew|].
  intros Hmono k Hk. eapply Forall_impl; [|exact Hnew].
  intros h (j & Hj & ->). apply Hmono. lia.
Qed.

Lemma check_health_timestamps_from_clock_witness :
  exists r self' w',
    check_health (env_answering (Responded 200 [])) (init wisecow)
      initial_world = (Ok (r, self'), w')
    /\ timestamp r = noon
    /\ Forall (from_clock (env_answering (Responded 200 [])) (now_reads w'))
         (history self').
Proof.
  destruct (check_health (env_answering (Responded 200 [])) (init wisecow)
              initial_world) as [[[r self']|e] w'] eqn:Hrun;
    [|cbv in Hrun; discriminate Hrun].
  exists r, self', w'. split; [reflexivity|].
  destruct (check_health_timestamps_from_clock _ _ _ _ _ _ Hrun (Forall_nil _))
    as (Hts & Hnew & _).
  split; [exact Hts|exact Hnew].
Defined.

(** *** The loop over the checkers *)

(** X6.  When the loop over the checkers ends, it has made exactly one
    request and read the clock exactly once for every checker, it has left
    the report file alone, and it returns as many checkers as it was given,
    each with the configuration it had. *)
Theorem check_all_visits_every_target env cs : forall w cs' w',
  check_all env cs w = (Ok cs', w') ->
  length cs' = length cs
  /\ Forall2 same_target cs cs'
  /\ requests_made w' = (requests_made w + length cs)%nat
  /\ now_reads w' = (now_reads w + length cs)%nat
  /\ report_file w' = report_file w.
Proof.
  induction cs as [|c cs IH]; intros w cs' w'.
  - cbn. intros [= <- <-]. rewrite !Nat.add_0_r. repeat split. constructor.
  - rewrite AppFacts.check_all_cons.
    destruct (check_health env c w) as [[[r c1]|e] w1] eqn:Hc; [|discriminate].
    destruct (check_all env cs w1) as [[cs1|e] w2] eqn:Hrest; [|discriminate].
    intros [= <- <-]. cbn [snd].
    destruct (check_health_result _ _ _ _ _ _ Hc)
      as (-> & _ & _ & _ & Hreads & Hreqs & Hfile).
    destruct (IH _ _ _ Hrest) as (Hlen & Hsame & Hr & Hn & Hf).
    cbn [length]. split; [now rewrite Hlen|].
    split; [constructor; [repeat split|exact Hsame]|].
    split; [rewrite Hr, Hreqs; lia|].
    split; [rewrite Hn, Hreads; lia|]. now rewrite Hf.
Qed.

Lemma check_all_visits_every_target_witness :
  exists cs' w',
    check_all env_second_down (map init [wisecow; wisecow; wisecow])
      initial_world = (Ok cs', w')
    /\ length cs' = 3%nat /\ requests_made w' = 3%nat /\ now_reads w' = 3%nat.
Proof.
  destruct (check_all env_second_down (map init [wisecow; wisecow; wisecow])
              initial_world) as [[cs'|e] w'] eqn:Hrun;
    [|cbv in Hrun; discriminate Hrun].
  exists cs', w'. split; [reflexivity|].
  destruct (check_all_visits_every_target _ _ _ _ _ Hrun)
    as (Hlen & _ & Hr & Hn & _).
  split; [exact Hlen|]. split; [exact Hr|exact Hn].
Defined.

(** X7.  The loop stops at the first request that raises an exception which
    [check_health] does not recover: that exception leaves the loop, and the
    checkers after it are not requested. *)
Theorem check_all_stops_at_first_unexpected env pre : forall cs w e post,
  outcomes env (requests_made w) cs = pre ++ RaisedUnexpected e :: post ->
  Forall (fun o => unexpected o = false) pre ->
  exists w',
    check_all env cs w = (Raise e, w')
    /\ requests_made w' = (requests_made w + length pre + 1)%nat.
Proof.
  induction pre as [|o pre IH]; intros cs w e post Hout Hpre;
    (destruct cs as [|c cs]; [discriminate Hout|]);
    cbn [outcomes app] in Hout; injection Hout as Hhead Htail;
    fold (request_of env c w) in Hhead; rewrite AppFacts.check_all_cons.
  - destruct (AppFacts.check_health_unexpected env c w e Hhead)
      as (w1 & -> & Hreqs).
    exists w1. split; [reflexivity|]. rewrite Hreqs. cbn. lia.
  - inversion Hpre as [|? ? Ho Hpre']; subst o.
    assert (Hok : exists r c1 w1,
               check_health env c w = (Ok (r, c1), w1)
               /\ requests_made w1 = S (requests_made w)).
    { destruct (AppFacts.outcome_cases (request_of env c w))
        as [Hcase|[Hcase|Hcase]].
      - destruct (request_of env c w) as [code hdrs| | | |] eqn:Hreq;
          try discriminate Hcase.
        destruct (AppFacts.check_health_responded env c w code hdrs Hreq)
          as (r & w1 & Hrun & _ & _ & _ & Hreqs & _). eauto 6.
      - destruct (AppFacts.check_health_failed env c w Hcase)
          as (r & w1 & Hrun & _ & _ & _ & _ & Hreqs & _). eauto 6.
      - congruence. }
    destruct Hok as (r & c1 & w1 & -> & Hreqs).
    rewrite <- Hreqs in Htail.
    destruct (IH cs w1 e post Htail Hpre') as (w2 & -> & Hreqs2).
    exists w2. split; [reflexivity|]. rewrite Hreqs2, Hreqs. cbn. lia.
Qed.

Lemma check_all_stops_at_first_unexpected_witness :
  outcomes (env_breaking_at 1) 0 (map init [wisecow; wisecow; wisecow])
  = [Responded 200 []] ++ RaisedUnexpected TypeError :: [Responded 200 []]
  /\ exists w',
       check_all (env_breaking_at 1) (map init [wisecow; wisecow; wisecow])
         initial_world = (Raise TypeError, w')
       /\ requests_made w' = 2%nat.
Proof.
  split; [reflexivity|].
  apply (check_all_stops_at_first_unexpected (env_breaking_at 1)
           [Responded 200 []] (map init [wisecow; wisecow; wisecow])
           initial_world TypeError [Responded 200 []] eq_refl).
  repeat constructor.
Defined.

(** *** get_uptime_percentage *)

Lemma count_none {A} (p : A -> bool) (l : list A) :
  Forall (fun x => p x = false) l -> count p l = 0%nat.
Proof.
  unfold count. induction 1 as [|x l Hx _ IH]; [reflexivity|].
  cbn [filter]. now rewrite Hx.
Qed.

(** X8.  A target that was never UP has uptime 0: when no result of the
    history has verdict UP, [get_uptime_percentage] returns 0 for every
    window and every clock (or raises [OverflowError] where the arithmetic on
    datetimes overflows). *)
Theorem uptime_zero_when_never_up env self hours w :
  Forall (fun h => health h <> UP) (history self) ->
  match fst (get_uptime_percentage env self hours w) with
  | Ok v => (v == 0)%Q
  | Raise e => e = OverflowError
  end.
Proof.
  intros Hnever.
  destruct (filterM (fun h => _is_recent env (timestamp h) hours)
              (history self) w) as [[recent|e] w1] eqn:Hrun.
  - destruct (AppFacts.uptime_of_recent env self hours w recent w1 Hrun)
      as (v & w' & -> & _ & Hnone & Hsome). cbn [fst].
    destruct recent as [|r rs]; [now rewrite Hnone|].
    rewrite Hsome by discriminate.
    rewrite count_none.
    + unfold Qdiv. now rewrite !Qmult_0_l.
    + rewrite Forall_forall. intros h Hin.
      apply (AppFacts.recent_checks_by_reading env hours _ _ _ _ Hrun) in Hin.
      destruct Hin as (i & c & Hnth & _). apply nth_error_In in Hnth.
      rewrite Forall_forall in Hnever. specialize (Hnever h Hnth).
      unfold is_up. now destruct (health h).
  - pose proof (AppFacts.uptime_percentage_total env self hours w) as Htot.
    destruct (get_uptime_percentage env self hours w) as [[v|e'] w'] eqn:Hup;
      cbn [fst] in *.
    + unfold get_uptime_percentage in Hup.
      destruct (history self); [discriminate Hrun|].
      unfold bind in Hup. rewrite Hrun in Hup. discriminate.
    + now destruct Htot.
Qed.

Lemma uptime_zero_when_never_up_witness :
  Forall (fun h => health h <> UP)
    (history (with_history [entry (noon - hours_us 3) DOWN;
                            entry (noon - hours_us 1) DEGRADED]))
  /\ exists v,
       fst (get_uptime_percentage env_frozen
              (with_history [entry (noon - hours_us 3) DOWN;
                             entry (noon - hours_us 1) DEGRADED])
              24 initial_world) = Ok v
       /\ (v == 0)%Q.
Proof.
  assert (Hnever : Forall (fun h => health h <> UP)
            (history (with_history [entry (noon - hours_us 3) DOWN;
                                    entry (noon - hours_us 1) DEGRADED]))).
  { repeat constructor; discriminate. }
  split; [exact Hnever|].
  pose proof (uptime_zero_when_never_up env_frozen _ 24 initial_world Hnever)
    as Hzero.
  destruct (fst (get_uptime_percentage env_frozen _ 24 initial_world))
    as [v|e] eqn:Hrun; [|cbv in Hrun; discriminate Hrun].
  exists v. split; [reflexivity|exact Hzero].
Defined.

(** *** generate_report *)

Lemma round_half_even_bounds (x : Q) (lo hi : Z) :
  (inject_Z lo <= x <= inject_Z hi)%Q -> lo <= round_half_even x <= hi.
Proof.
  destruct x as [n d]. unfold Qle, round_half_even. cbn [Qnum Qden inject_Z].
  rewrite !Z.mul_1_r. intros [Hlo Hhi].
  pose proof (Z.div_mod n (Z.pos d) ltac:(lia)) as Hdm.
  pose proof (Z.mod_pos_bound n (Z.pos d) ltac:(lia)) as Hm.
  assert (Hfl : lo <= n / Z.pos d <= hi).
  { split; [apply Z.div_le_lower_bound; lia|].
    apply Z.lt_succ_r. apply Z.div_lt_upper_bound; lia. }
  destruct (2 * (n mod Z.pos d) <? Z.pos d) eqn:Hlt; [exact Hfl|].
  apply Z.ltb_ge in Hlt.
  assert (Hup : n / Z.pos d + 1 <= hi) by nia.
  destruct (Z.pos d <? 2 * (n mod Z.pos d)); [lia|].
  destruct (Z.even (n / Z.pos d)); lia.
Qed.

(** [round(x, 2)] stays between 0 and 100 when [x] is. *)
Lemma round2_percentage (q : Q) :
  (0 <= q <= 100)%Q -> (0 <= round2 q <= 100)%Q.
Proof.
  intros [H0 H100]. unfold round2. rewrite Qred_correct.
  assert (Hx : (inject_Z 0 <= q * 100 <= inject_Z 10000)%Q).
  { split.
    - apply Qmult_le_0_compat; [exact H0|discriminate].
    - change (inject_Z 10000) with (100 * 100)%Q.
      apply Qmult_le_compat_r; [exact H100|discriminate]. }
  apply round_half_even_bounds in Hx.
  unfold Qle. cbn [Qnum Qden]. lia.
Qed.

Lemma last_opt_none {A} (l : list A) : last_opt l = None <-> l = [].
Proof.
  split; [|now intros ->].
  induction l as [|x l IH]; [reflexivity|].
  cbn [last_opt]. destruct l; [discriminate|]. intros H. now apply IH in H.
Qed.

Lemma has_history_last c :
  has_history c = true <-> exists latest, last_opt (history c) = Some latest.
Proof.
  unfold has_history. destruct (last_opt (history c)) as [latest|] eqn:Hl.
  - split; [eauto|]. intros _. destruct (history c); [discriminate Hl|easy].
  - apply last_opt_none in Hl. rewrite Hl. split; [discriminate|].
    intros (? & H). discriminate H.
Qed.

(** One round of the loop of [generate_report]. *)
Lemma report_checker_entry env acc c w acc' w' :
  report_checker env acc c w = (Ok acc', w') ->
  total_applications (fst acc') = total_applications (fst acc)
  /\ ((has_history c = false /\ snd acc' = snd acc)
      \/ (has_history c = true
          /\ exists a, snd acc' = snd acc ++ [a] /\ summarises c a
                       /\ (0 <= uptime_24h a <= 100)%Q)).
Proof.
  unfold report_checker.
  destruct (last_opt (history c)) as [latest|] eqn:Hl.
  - unfold bind at 1.
    pose proof (AppFacts.uptime_percentage_total env c 24 w) as Hv.
    destruct (get_uptime_percentage env c 24 w) as [[v|e] w1]; [|discriminate].
    unfold bind at 1.
    destruct (get_uptime_percentage env c 24 w1) as [[v'|e] w2]; [|discriminate].
    unfold ret. intros [= <- <-]. cbn [fst snd] in *.
    split; [now destruct (health latest)|]. right.
    split; [apply has_history_last; eauto|].
    eexists. split; [reflexivity|]. split.
    + exists latest. cbn. repeat split. exact Hl.
    + cbn [uptime_24h]. now apply round2_percentage.
  - unfold ret. intros [= <- <-]. split; [reflexivity|]. left.
    split; [|reflexivity].
    destruct (has_history c) eqn:Hh; [|reflexivity].
    apply has_history_last in Hh. destruct Hh as (? & Hh). congruence.
Qed.

Lemma report_fold_entries env cs : forall acc w acc' w',
  foldM (report_checker env) acc cs w = (Ok acc', w') ->
  total_applications (fst acc') = total_applications (fst acc)
  /\ exists new,
       snd acc' = snd acc ++ new
       /\ Forall2 summarises (filter has_history cs) new
       /\ Forall (fun a => (0 <= uptime_24h a <= 100)%Q) new.
Proof.
  induction cs as [|c cs IH]; intros acc w acc' w'; cbn [foldM].
  - unfold ret. intros [= <- <-]. split; [reflexivity|].
    exists []. rewrite app_nil_r. repeat split; constructor.
  - unfold bind at 1.
    destruct (report_checker env acc c w) as [[acc1|e] w1] eqn:H1;
      [|discriminate].
    intros Hrest. apply IH in Hrest. destruct Hrest as (Htot & new & Hsnd & Hall & Hb).
    apply report_checker_entry in H1. destruct H1 as (Htot1 & Hcase).
    split; [congruence|]. cbn [filter].
    destruct Hcase as [(Hh & Hsame)|(Hh & a & Hsame & Ha & Hba)]; rewrite Hh.
    + exists new. rewrite Hsnd, Hsame. auto.
    + exists (a :: new). rewrite Hsnd, Hsame, <- app_assoc.
      split; [reflexivity|]. split; constructor; assumption.
Qed.

Lemma generate_report_entries env cs w report w' :
  generate_report env cs w = (Ok report, w') ->
  total_applications (summary report) = length cs
  /\ generated_at report = datetime_now env (now_reads w)
  /\ Forall2 summarises (filter has_history cs) (applications report)
  /\ Forall (fun a => (0 <= uptime_24h a <= 100)%Q) (applications report).
Proof.
  unfold generate_report. unfold bind at 1, now at 1. unfold bind at 1, now at 1.
  unfold bind at 1.
  match goal with
  | |- context [foldM (report_checker env) ?a cs ?w0] =>
      destruct (foldM (report_checker env) a cs w0) as [[acc|e] w1] eqn:Hfold
  end; [|discriminate].
  apply report_fold_entries in Hfold. cbn [fst snd total_applications] in Hfold.
  destruct Hfold as (Htot & new & Hsnd & Hall & Hb).
  destruct acc as [s l]. cbn [fst snd app] in *. subst l.
  match goal with
  | |- context [write_report env ?r] => destruct (write_report env r)
  end; run; intros [= <- <-]; cbn [summary generated_at applications]; auto.
Qed.

Lemma latest_is_last v c :
  latest_is v c = match last_opt (history c) with
                  | Some latest => Health_eqb (health latest) v
                  | None => false
                  end.
Proof.
  unfold latest_is, latest_health. now destruct (last_opt (history c)).
Qed.

Lemma counts_add_up cs :
  (count (latest_is UP) cs + count (latest_is DEGRADED) cs
   + count (latest_is DOWN) cs)%nat
  = length (filter has_history cs).
Proof.
  unfold count. induction cs as [|c cs IH]; [reflexivity|].
  cbn [filter]. rewrite !(latest_is_last _ c).
  destruct (has_history c) eqn:Hh.
  - apply has_history_last in Hh. destruct Hh as (latest & ->).
    destruct (health latest); cbn [Health_eqb length]; lia.
  - assert (Hl : last_opt (history c) = None).
    { destruct (last_opt (history c)) eqn:Hl; [|reflexivity].
      assert (has_history c = true) by (apply has_history_last; eauto).
      congruence. }
    rewrite Hl. exact IH.
Qed.

(** X9.  The report of [generate_report] has one entry for every checker
    that has a history, in the order of the checkers, and each entry copies
    the name and url of its checker and the verdict, status code, latency,
    message and timestamp of its latest result; a checker without history is
    counted in the total only.  The three counts of the summary add up to
    the number of entries. *)
Theorem generate_report_describes_checkers env cs w report w' :
  generate_report env cs w = (Ok report, w') ->
  total_applications (summary report) = length cs
  /\ Forall2 summarises (filter has_history cs) (applications report)
  /\ (up (summary report) + degraded (summary report)
      + down (summary report))%nat
     = length (applications report)
  /\ (length (applications report) <= total_applications (summary report))%nat.
Proof.
  intros Hrun.
  destruct (generate_report_entries _ _ _ _ _ Hrun) as (Htot & _ & Hall & _).
  destruct (AppFacts.generate_report_counts _ _ _ _ _ Hrun) as (-> & -> & ->).
  assert (Hlen : length (applications report) = length (filter has_history cs)).
  { symmetry. eapply Forall2_length. exact Hall. }
  split; [exact Htot|]. split; [exact Hall|].
  split; [now rewrite counts_add_up|].
  rewrite Hlen, Htot. apply filter_length_le.
Qed.

Lemma generate_report_describes_checkers_witness :
  exists report w',
    generate_report env_frozen [checker_with_four; init wisecow] initial_world
    = (Ok report, w')
    /\ total_applications (summary report) = 2%nat
    /\ length (applications report) = 1%nat
    /\ (up (summary report) + degraded (summary report)
        + down (summary report))%nat = 1%nat.
Proof.
  destruct (generate_report env_frozen [checker_with_four; init wisecow]
              initial_world) as [[report|e] w'] eqn:Hrun;
    [|cbv in Hrun; discriminate Hrun].
  exists report, w'. split; [reflexivity|].
  destruct (generate_report_describes_checkers _ _ _ _ _ Hrun)
    as (Htot & Hall & Hsum & _).
  apply Forall2_length in Hall. cbn in Hall.
  split; [exact Htot|]. split; [now symmetry|]. now rewrite Hsum.
Defined.

(** X10.  Every uptime that [generate_report] writes into the report is
    between 0 and 100. *)
Theorem report_uptimes_are_percentages env cs w report w' :
  generate_report env cs w = (Ok report, w') ->
  Forall (fun a => (0 <= uptime_24h a <= 100)%Q) (applications report).
Proof.
  intros Hrun.
  now destruct (generate_report_entries _ _ _ _ _ Hrun) as (_ & _ & _ & Hb).
Qed.

Lemma report_uptimes_are_percentages_witness :
  exists report w',
    generate_report env_frozen [checker_with_four] initial_world
    = (Ok report, w')
    /\ Forall (fun a => (0 <= uptime_24h a <= 100)%Q) (applications report).
Proof.
  destruct (generate_report env_frozen [checker_with_four] initial_world)
    as [[report|e] w'] eqn:Hrun; [|cbv in Hrun; discriminate Hrun].
  exists report, w'. split; [reflexivity|].
  exact (report_uptimes_are_percentages _ _ _ _ _ Hrun).
Defined.

(** *** main *)

Lemma checked_have_history cs cs' :
  Forall2 (fun c c' => exists r, c' = append_history c r) cs cs' ->
  filter has_history cs' = cs'
  /\ map name cs' = map name cs /\ map url cs' = map url cs.
Proof.
  induction 1 as [|c c' cs cs' (r & ->) _ (IHf & IHn & IHu)];
    [repeat split|].
  cbn [filter map]. unfold has_history at 1. cbn [append_history history name url].
  destruct (history c ++ [r]) eqn:Happ; [now destruct (history c)|].
  rewrite IHf, IHn, IHu. repeat split.
Qed.

Lemma summarised_names cs entries :
  Forall2 summarises cs entries ->
  map ar_name entries = map name cs /\ map ar_url entries = map url cs.
Proof.
  induction 1 as [|c a cs entries (latest & _ & Hn & Hu & _) _ (IHn & IHu)];
    [split; reflexivity|].
  cbn [map]. now rewrite Hn, Hu, IHn, IHu.
Qed.

(** X11.  In a run whose checks and report go through, the report accounts
    for every configured application: the total and the sum of the three
    counts both equal the number of applications, the entries carry the
    names and urls of the applications in their order, and the count of DOWN
    is the number of requests that failed. *)
Theorem run_reports_every_application env apps w cs' w1 report w2 :
  check_all env (map init apps) w = (Ok cs', w1) ->
  generate_report env cs' w1 = (Ok report, w2) ->
  total_applications (summary report) = length apps
  /\ (up (summary report) + degraded (summary report)
      + down (summary report))%nat = length apps
  /\ map ar_name (applications report) = map cfg_name apps
  /\ map ar_url (applications report) = map cfg_url apps
  /\ down (summary report)
     = count failed (outcomes env (requests_made w) (map init apps)).
Proof.
  intros Hchecks Hreport.
  pose proof (AppFacts.check_all_run env (map init apps) w) as Hrun.
  rewrite Hchecks in Hrun. destruct Hrun as (_ & Hdown & Hhist).
  destruct (checked_have_history _ _ Hhist) as (Hfilter & Hnames & Hurls).
  assert (Hlen : length cs' = length apps).
  { apply Forall2_length in Hhist. now rewrite <- Hhist, length_map. }
  destruct (generate_report_entries _ _ _ _ _ Hreport) as (Htot & _ & Hall & _).
  destruct (AppFacts.generate_report_counts _ _ _ _ _ Hreport)
    as (Hup & Hdeg & Hdn).
  rewrite Hfilter in Hall.
  destruct (summarised_names _ _ Hall) as (Hn & Hu).
  split; [now rewrite Htot|].
  split; [rewrite Hup, Hdeg, Hdn, counts_add_up, Hfilter; exact Hlen|].
  split; [rewrite Hn, Hnames, map_map; reflexivity|].
  split; [rewrite Hu, Hurls, map_map; reflexivity|].
  now rewrite Hdn.
Qed.

Lemma run_reports_every_application_witness :
  exists cs' w1 report w2,
    check_all env_second_down (map init APPLICATIONS) initial_world
    = (Ok cs', w1)
    /\ generate_report env_second_down cs' w1 = (Ok report, w2)
    /\ total_applications (summary report) = 2%nat
    /\ map ar_name (applications report)
       = ["Wisecow App"; "Example API"]%string
    /\ down (summary report) = 1%nat.
Proof.
  destruct (check_all env_second_down (map init APPLICATIONS) initial_world)
    as [[cs'|e] w1] eqn:Hchecks; [|cbv in Hchecks; discriminate Hchecks].
  destruct (generate_report env_second_down cs' w1)
    as [[report|e] w2] eqn:Hreport.
  - exists cs', w1, report, w2. split; [reflexivity|]. split; [exact Hreport|].
    destruct (run_reports_every_application _ _ _ _ _ _ _ Hchecks Hreport)
      as (Htot & _ & Hn & _ & Hdn).
    split; [exact Htot|]. split; [exact Hn|exact Hdn].
  - exfalso. cbv in Hchecks. injection Hchecks as <- <-.
    cbv in Hreport. discriminate Hreport.
Defined.

(** X12.  [main] always ends with one of the exit codes 0, 1 and 2, and the
    last line of its log tells which: an error with the positive number of
    applications that are DOWN for 1, a warning with the positive number of
    DEGRADED applications or the information that all are UP for 0, and an
    error with the exception for 2. *)
Theorem main_ends_with_verdict_line env apps w :
  exists code w' l,
    main_on env apps w = (Ok code, w')
    /\ ((code = 1 /\ exists n, (0 < n)%nat
                              /\ log w' = l ++ [(ERROR, EvAppsDown n)])
        \/ (code = 0 /\ exists n, (0 < n)%nat
                                 /\ log w' = l ++ [(WARNING, EvAppsDegraded n)])
        \/ (code = 0 /\ log w' = l ++ [(INFO, EvAllUp)])
        \/ (code = 2 /\ exists e, log w' = l ++ [(ERROR, EvCheckFailed e)])).
Proof.
  unfold main_on, main_body. run.
  destruct (check_all env (map init apps) _) as [[cs'|e] w1].
  - destruct (generate_report env cs' w1) as [[report|e] w2].
    + destruct (0 <? down (summary report))%nat eqn:Hdown.
      * eexists; eexists; eexists. split; [reflexivity|]. left.
        split; [reflexivity|]. eexists. split; [|reflexivity].
        now apply Nat.ltb_lt.
      * destruct (0 <? degraded (summary report))%nat eqn:Hdeg.
        -- eexists; eexists; eexists. split; [reflexivity|]. right; left.
           split; [reflexivity|]. eexists. split; [|reflexivity].
           now apply Nat.ltb_lt.
        -- eexists; eexists; eexists. split; [reflexivity|].
           right; right; left. split; reflexivity.
    + eexists; eexists; eexists. split; [reflexivity|].
      right; right; right. split; [reflexivity|]. eexists. reflexivity.
  - eexists; eexists; eexists. split; [reflexivity|].
    right; right; right. split; [reflexivity|]. eexists. reflexivity.
Qed.

(** *** The latency *)




(** *** The report of a first run *)

Lemma checks_of_fresh_checkers env cs : forall w cs' w',
  Forall (fun c => history c = []) cs ->
  check_all env cs w = (Ok cs', w') ->
  Forall (checked_once env) cs'.
Proof.
  induction cs as [|c cs IH]; intros w cs' w' Hfresh.
  - cbn. intros [= <- <-]. constructor.
  - rewrite AppFacts.check_all_cons.
    destruct (check_health env c w) as [[[r c1]|e] w1] eqn:Hc; [|discriminate].
    destruct (check_all env cs w1) as [[cs1|e] w2] eqn:Hrest; [|discriminate].
    intros [= <- <-]. cbn [snd].
    inversion Hfresh as [|? ? Hc0 Hfresh']; subst.
    destruct (check_health_result _ _ _ _ _ _ Hc) as (-> & _ & _ & Hts & _).
    constructor; [|eapply IH; eassumption].
    exists r, (now_reads w). cbn [append_history history]. rewrite Hc0.
    split; [reflexivity|exact Hts].
Qed.

Lemma uptime_of_one_result env c r w v w' :
  history c = [r] ->
  (forall k, datetime_now env k - 24 * US_PER_HOUR < timestamp r) ->
  get_uptime_percentage env c 24 w = (Ok v, w') ->
  round2 v = if is_up r then 100%Q else 0%Q.
Proof.
  intros Hh Hfresh. unfold get_uptime_percentage. rewrite Hh.
  cbn [filterM]. unfold bind at 1. unfold bind at 1.
  destruct (AppFacts.is_recent_run env (timestamp r) 24 w) as (w1 & -> & _).
  destruct (cutoff (datetime_now env (now_reads w)) 24) as [c0|e] eqn:Hc0;
    [|discriminate].
  apply AppFacts.cutoff_value in Hc0.
  assert (Hlt : (c0 <? timestamp r) = true).
  { apply Z.ltb_lt. rewrite Hc0. apply Hfresh. }
  rewrite Hlt. run. intros [= <- <-]. unfold count, is_up. cbn [filter].
  destruct (Health_eqb (health r) UP); reflexivity.
Qed.

Lemma report_checker_first_run env acc c w acc' w' :
  short_run env -> checked_once env c ->
  report_checker env acc c w = (Ok acc', w') ->
  exists a,
    snd acc' = snd acc ++ [a]
    /\ uptime_24h a = if Health_eqb (current_status a) UP then 100%Q else 0%Q.
Proof.
  intros Hshort (r & k & Hh & Hts). unfold report_checker. rewrite Hh.
  cbn [last_opt]. unfold bind at 1.
  destruct (get_uptime_percentage env c 24 w) as [[v|e] w1] eqn:Hv;
    [|discriminate].
  unfold bind at 1.
  destruct (get_uptime_percentage env c 24 w1) as [[v'|e] w2]; [|discriminate].
  unfold ret. intros [= <- <-]. eexists. split; [reflexivity|].
  cbn [uptime_24h current_status].
  apply (uptime_of_one_result env c r w v w1 Hh); [|exact Hv].
  intros j. rewrite Hts. apply Hshort.
Qed.

Lemma report_fold_first_run env cs : forall acc w acc' w',
  short_run env -> Forall (checked_once env) cs ->
  foldM (report_checker env) acc cs w = (Ok acc', w') ->
  exists new,
    snd acc' = snd acc ++ new
    /\ Forall (fun a => uptime_24h a
                        = if Health_eqb (current_status a) UP
                          then 100%Q else 0%Q) new.
Proof.
  induction cs as [|c cs IH]; intros acc w acc' w' Hshort Hcs; cbn [foldM].
  - unfold ret. intros [= <- <-]. exists []. rewrite app_nil_r.
    split; [reflexivity|constructor].
  - inversion Hcs as [|? ? Hc Hcs']; subst. unfold bind at 1.
    destruct (report_checker env acc c w) as [[acc1|e] w1] eqn:H1;
      [|discriminate].
    intros Hrest.
    destruct (report_checker_first_run _ _ _ _ _ _ Hshort Hc H1)
      as (a & Hsnd1 & Ha).
    destruct (IH _ _ _ _ Hshort Hcs' Hrest) as (new & Hsnd & Hnew).
    exists (a :: new). rewrite Hsnd, Hsnd1, <- app_assoc.
    split; [reflexivity|now constructor].
Qed.

(** X20.  In a run that starts from fresh checkers and whose readings of the
    clock are less than 24 hours apart, the uptime of every entry of the
    report is 100 when the target is UP and 0 when it is DEGRADED or DOWN:
    the history holds the one result of this run. *)
Theorem first_run_uptime_is_all_or_nothing env apps w cs' w1 report w2 :
  short_run env ->
  check_all env (map init apps) w = (Ok cs', w1) ->
  generate_report env cs' w1 = (Ok report, w2) ->
  Forall (fun a => uptime_24h a
                   = if Health_eqb (current_status a) UP then 100%Q else 0%Q)
    (applications report).
Proof.
  intros Hshort Hchecks. 
  assert (Honce : Forall (checked_once env) cs').
  { eapply checks_of_fresh_checkers; [|exact Hchecks].
    apply Forall_forall. intros c Hin. apply in_map_iff in Hin.
    now destruct Hin as (a & <- & _). }
  clear Hchecks. unfold generate_report.
  unfold bind at 1, now at 1. unfold bind at 1, now at 1. unfold bind at 1.
  match goal with
  | |- context [foldM (report_checker env) ?a cs' ?w0] =>
      destruct (foldM (report_checker env) a cs' w0) as [[acc|e] w3] eqn:Hfold
  end; [|discriminate].
  destruct (report_fold_first_run _ _ _ _ _ _ Hshort Honce Hfold)
    as (new & Hsnd & Hnew).
  destruct acc as [s l]. cbn [fst snd app] in *. subst l.
  match goal with
  | |- context [write_report env ?r] => destruct (write_report env r)
  end; run; intros [= <- <-]; exact Hnew.
Qed.

Lemma first_run_uptime_is_all_or_nothing_witness :
  short_run (env_still RaisedTimeout)
  /\ exists cs' w1 report w2,
       check_all (env_still RaisedTimeout) (map init APPLICATIONS)
         initial_world = (Ok cs', w1)
       /\ generate_report (env_still RaisedTimeout) cs' w1 = (Ok report, w2)
       /\ map uptime_24h (applications report) = [0%Q; 0%Q].
Proof.
  assert (Hshort : short_run (env_still RaisedTimeout)).
  { intros i j. reflexivity. }
  split; [exact Hshort|].
  destruct (check_all (env_still RaisedTimeout) (map init APPLICATIONS)
              initial_world) as [[cs'|e] w1] eqn:Hchecks;
    [|cbv in Hchecks; discriminate Hchecks].
  destruct (generate_report (env_still RaisedTimeout) cs' w1)
    as [[report|e] w2] eqn:Hreport.
  - exists cs', w1, report, w2. split; [reflexivity|]. split; [exact Hreport|].
    pose proof (first_run_uptime_is_all_or_nothing _ _ _ _ _ _ _
                  Hshort Hchecks Hreport) as Hall.
    cbv in Hchecks. injection Hchecks as <- <-.
    cbv in Hreport. injection Hreport as <- <-. reflexivity.
  - exfalso. cbv in Hchecks. injection Hchecks as <- <-.
    cbv in Hreport. discriminate Hreport.
Defined.

(** *** The report file *)

Lemma generate_report_written env cs w report w' :
  generate_report env cs w = (Ok report, w') ->
  write_report env report = Written ->
  report_file w' = Complete report.
Proof.
  unfold generate_report. unfold bind at 1, now at 1. unfold bind at 1, now at 1.
  unfold bind at 1.
  match goal with
  | |- context [foldM (report_checker env) ?a cs ?w0] =>
      destruct (foldM (report_checker env) a cs w0) as [[acc|e] w1]
  end; [|discriminate].
  destruct acc as [s0 l0]. cbn [fst snd].
  match goal with
  | |- context [write_report env ?r] =>
      destruct (write_report env r) eqn:Hw
  end; unfold bind, set_report_file, logger, modify, ret;
    intros [= <- <-] Hw'; [reflexivity| |];
    rewrite Hw in Hw'; discriminate Hw'.
Qed.

(** X21.  On a file system that accepts the report, a run that does not end
    with 2 leaves in the report file the report of this run, and the exit
    code agrees with it: the total is the number of applications, and the
    code is 1 exactly when the count of DOWN in the file is positive. *)
Theorem written_report_agrees_with_exit_code env apps w code w' :
  (forall r, write_report env r = Written) ->
  main_on env apps w = (Ok code, w') ->
  code <> 2 ->
  exists report,
    report_file w' = Complete report
    /\ total_applications (summary report) = length apps
    /\ (code = 1 <-> (0 < down (summary report))%nat)
    /\ (code = 0 <-> down (summary report) = 0%nat).
Proof.
  intros Hfs. unfold main_on, main_body. run.
  destruct (check_all env (map init apps) _) as [[cs'|e] w1] eqn:Hchecks;
    [|intros [= <- <-]; congruence].
  destruct (generate_report env cs' w1) as [[report|e] w2] eqn:Hreport;
    [|intros [= <- <-]; congruence].
  pose proof (generate_report_written _ _ _ _ _ Hreport (Hfs report)) as Hfile.
  destruct (run_reports_every_application _ _ _ _ _ _ _ Hchecks Hreport)
    as (Htot & _).
  destruct (0 <? down (summary report))%nat eqn:Hdown.
  - intros [= <- <-] _. exists report. apply Nat.ltb_lt in Hdown.
    split; [exact Hfile|]. split; [exact Htot|].
    split; split; intros; try reflexivity; try assumption; lia.
  - apply Nat.ltb_ge in Hdown.
    destruct (0 <? degraded (summary report))%nat;
      intros [= <- <-] _; exists report;
      (split; [exact Hfile|]); (split; [exact Htot|]);
      split; split; intros; try reflexivity; try lia; discriminate.
Qed.

Lemma written_report_agrees_with_exit_code_witness :
  (forall r, write_report env_second_down r = Written)
  /\ exists w' report,
       main_on env_second_down APPLICATIONS initial_world = (Ok 1, w')
       /\ report_file w' = Complete report
       /\ (0 < down (summary report))%nat.
Proof.
  split; [reflexivity|].
  destruct (main_on env_second_down APPLICATIONS initial_world)
    as [[code|e] w'] eqn:Hrun; [|cbv in Hrun; discriminate Hrun].
  assert (Hcode : code = 1) by (cbv in Hrun; congruence).
  subst code.
  destruct (written_report_agrees_with_exit_code env_second_down APPLICATIONS
              initial_world 1 w' (fun _ => eq_refl) Hrun ltac:(discriminate))
    as (report & Hfile & _ & Hone & _).
  exists w', report. split; [reflexivity|]. split; [exact Hfile|].
  now apply Hone.
Defined.

End AppMore.
